(** * AutoModel: graph assembly and the multi-IO data pipeline

    A shallow embedding of [autokeras/auto_model.py].  Python objects are
    records carrying an identity, the interpreter state (the [AutoModel]
    instance, the allocator of object identities and the trace of calls made
    to external collaborators) is threaded through a state-and-exception
    monad, and every [raise] of the source is an explicit failure that keeps
    the state reached so far. *)

From stdpp Require Import gmap strings list pretty.
From Stdlib Require Import Ascii QArith.

Set Warnings "-register-all".

Local Open Scope Z_scope.
Local Open Scope nat_scope.
Local Open Scope string_scope.
Local Open Scope list_scope.

(** ** Python values *)

(** Exceptions raised by the module, either through [raise] or by the
    interpreter (unbound local, bad index, missing attribute, bad call), and
    those of the libraries it calls: numpy's [ValueError], and TensorFlow's
    [InvalidArgumentError], kept with the name of the op that raises it. *)
Inductive exn :=
| ValueError (msg : string)
| UnboundLocalError (name : string)
| IndexError (msg : string)
| AttributeError (msg : string)
| TypeError (msg : string)
| InvalidArgumentError (op : string).

Definition Shape := list nat.

Record ndarray := { shape : Shape; data : list Z }.

(** Nested tuples, as [tensorflow.python.util.nest] sees them. *)
Inductive nest (A : Type) :=
| Leaf (a : A)
| Tuple (items : list (nest A)).
Arguments Leaf {A} a.
Arguments Tuple {A} items.

Fixpoint nest_flatten {A} (n : nest A) : list A :=
  match n with
  | Leaf a => [a]
  | Tuple items => flat_map nest_flatten items
  end.

Definition is_tuple {A} (n : nest A) : bool :=
  match n with Tuple _ => true | Leaf _ => false end.

(** What a function over dataset elements returns becomes the components of
    the new element: a tuple spreads, anything else is the only component. *)
Definition as_components {A} (n : nest A) : list (nest A) :=
  match n with Tuple items => items | Leaf _ => [n] end.

(** The element of a dataset seen as one value: a dataset with a single
    component yields that component. *)
Definition as_element {A} (cs : list (nest A)) : nest A :=
  match cs with [c] => c | _ => Tuple cs end.

(** Modelled from the spec: [tf.data.Dataset] is not part of the sources; it
    is the spec's ordered, batchable, shape-introspectable sequence.  The
    element structure is the list of top-level components, each a shape or a
    nested tuple of shapes; [rows] are the elements in order; [batches] are
    the batch sizes applied so far. *)
Record Dataset := {
  element_spec : list (nest Shape);
  rows : list (list (nest ndarray));
  batches : list nat }.

Inductive PyVal :=
| PyNone
| PyArray (a : ndarray)
| PySeq (items : list PyVal)
| PyDataset (d : Dataset).

(** [nest.flatten] on user data: lists and tuples are traversed, every other
    value (including [None] and a dataset) is a leaf. *)
Fixpoint flatten (v : PyVal) : list PyVal :=
  match v with
  | PySeq items => flat_map flatten items
  | _ => [v]
  end.

Definition is_Dataset (v : PyVal) : bool :=
  match v with PyDataset _ => true | _ => false end.

Definition is_None (v : PyVal) : bool :=
  match v with PyNone => true | _ => false end.

(** ** Nodes, blocks, graphs and tuners *)

(** Modelled from the spec: the classes of [autokeras.nodes] are not part of
    the sources.  A node carries its semantic kind, one of the four input
    kinds the assembler knows, a generic input or a plain node; the kinds are
    pairwise unrelated classes. *)
Inductive NodeClass :=
| PlainNode
| Input
| ImageInput
| TextInput
| StructuredDataInput
| TimeseriesInput.

Definition NodeClass_eqb (a b : NodeClass) : bool :=
  match a, b with
  | PlainNode, PlainNode | Input, Input | ImageInput, ImageInput
  | TextInput, TextInput | StructuredDataInput, StructuredDataInput
  | TimeseriesInput, TimeseriesInput => true
  | _, _ => false
  end.

Inductive BlockClass :=
| TextBlock
| ImageBlock
| StructuredDataBlock
| TimeseriesBlock
| Merge
| HeadClass (task : string)
| OtherBlock (name : string).

Record Block := { block_id : nat; block_class : BlockClass }.

Record Node := {
  node_id : nat;
  node_class : NodeClass;
  in_blocks : list Block }.

(** [isinstance(input_node, input_module.C)] *)
Definition isinstance_input (n : Node) (c : NodeClass) : bool :=
  NodeClass_eqb (node_class n) c.

(** Modelled from the spec: [autokeras.engine.head] is not part of the
    sources; a Head is a Block of a head class. *)
Definition is_head_class (c : BlockClass) : bool :=
  match c with HeadClass _ => true | _ => false end.

(** A declared output: a Node, or a Block object (a bare Head when its class
    is a head class). *)
Inductive Output :=
| OutNode (n : Node)
| OutBlock (b : Block).

Definition isinstance_Node (o : Output) : bool :=
  match o with OutNode _ => true | OutBlock _ => false end.

Definition isinstance_Head (o : Output) : bool :=
  match o with OutNode _ => false | OutBlock b => is_head_class (block_class b) end.

Module Graph.
(** Modelled from the spec: [autokeras.graph.Graph] is not part of the
    sources; the assembler only records the boundary of the graph. *)
Record t := { inputs : list Node; outputs : list Node }.
End Graph.

Inductive TunerClass :=
| BayesianOptimization
| RandomSearch
| Hyperband
| Greedy
| AutoTunerSubclass (name : string).

Inductive TunerArg :=
| TunerStr (s : string)
| TunerType (c : TunerClass).

(** A tuner object, known to this module only by the call that created it:
    the class called and the keyword arguments of [tuner(hypermodel=graph,
    ...)].  The tuner classes are not part of the sources; which attributes a
    tuner has, and what they hold, is not modelled. *)
Record Tuner := {
  tuner_class : TunerClass;
  hypermodel : Graph.t;
  preprocessors : option (list nat);
  overwrite : bool;
  objective : string;
  max_trials : nat;
  directory : option string;
  tuner_seed : option Z;
  project_name : string }.

(** The object an adapter configures: an input node or a head. *)
Inductive HyperModel :=
| HmNode (n : Node)
| HmBlock (b : Block).

(** The adapter obtained from [get_adapter()], identified by its owner. *)
Inductive Adapter := AdapterOf (owner : HyperModel).

(** ** The interpreter state *)

(** Calls that leave the module, in the order in which they are made. *)
Inductive Event :=
| np_random_seed (s : Z)
| tf_random_set_seed (s : Z)
| NewBlock (b : Block)
| CallBlock (b : Block) (args : list Node) (result : Node)
| NewGraph (g : Graph.t)
| NewTuner (t : Tuner)
| fit_transform (a : Adapter) (source : PyVal)
| config_from_adapter (hm : HyperModel) (a : Adapter)
| transform (a : Adapter) (source : PyVal)
| py_print (s : string)
| tuner_search (x : Dataset) (epochs : option nat) (validation_data : Dataset)
               (fit_on_val_data : bool)
| get_best_model
| model_predict (x : Dataset)
| model_evaluate (x : Dataset)
| postprocess (a : Adapter) (y : PyVal).

Record AutoModel := {
  inputs : list Node;
  outputs : list Output;
  seed : option Z;
  tuner : option Tuner;
  _split_dataset : bool;
  _heads : list Block;
  _input_adapters : list Adapter;
  _output_adapters : list Adapter }.

Record State := {
  self : AutoModel;
  next_id : nat;
  log : list Event }.

(** The object before [__init__] has assigned any attribute. *)
Definition blank : AutoModel :=
  {| inputs := []; outputs := []; seed := None; tuner := None;
     _split_dataset := false; _heads := []; _input_adapters := [];
     _output_adapters := [] |}.

(** ** A state and exception monad *)

Definition M (A : Type) : Type := State -> (exn + A) * State.

Definition ret {A} (a : A) : M A := fun st => (inr a, st).

Definition bind {A B} (c : M A) (k : A -> M B) : M B :=
  fun st =>
    match c st with
    | (inl e, st') => (inl e, st')
    | (inr a, st') => k a st'
    end.

Definition raise {A} (e : exn) : M A := fun st => (inl e, st).

Notation "x <- c ;; k" := (bind c (fun x => k))
  (at level 20, c at level 99, k at level 200).
Notation "' pat <- c ;; k" := (bind c (fun x => match x with pat => k end))
  (at level 20, pat pattern, c at level 99, k at level 200).
Notation "c ;;; k" := (bind c (fun _ => k))
  (at level 100, k at level 200, right associativity).

Definition get_self : M AutoModel := fun st => (inr (self st), st).

Definition get_log : M (list Event) := fun st => (inr (log st), st).

Definition set_self (f : AutoModel -> AutoModel) : M unit :=
  fun st => (inr tt, {| self := f (self st); next_id := next_id st; log := log st |}).

Definition emit (e : Event) : M unit :=
  fun st => (inr tt, {| self := self st; next_id := next_id st; log := log st ++ [e] |}).

Definition fresh : M nat :=
  fun st => (inr (next_id st),
             {| self := self st; next_id := S (next_id st); log := log st |}).

Definition lift {A} (r : exn + A) : M A :=
  match r with inl e => raise e | inr a => ret a end.

(** [for x in xs: acc = body(x, acc)] *)
Fixpoint for_each {A B} (xs : list A) (body : A -> B -> M B) (acc : B) : M B :=
  match xs with
  | [] => ret acc
  | x :: xs' => acc' <- body x acc ;; for_each xs' body acc'
  end.

(** [[f(x) for x in xs]] *)
Fixpoint comprehension {A B} (f : A -> M B) (xs : list A) : M (list B) :=
  match xs with
  | [] => ret []
  | x :: xs' => y <- f x ;; ys <- comprehension f xs' ;; ret (y :: ys)
  end.

(** Attribute assignments on [self]. *)
Definition set_inputs (v : list Node) (s : AutoModel) : AutoModel :=
  {| inputs := v; outputs := outputs s; seed := seed s; tuner := tuner s;
     _split_dataset := _split_dataset s; _heads := _heads s;
     _input_adapters := _input_adapters s; _output_adapters := _output_adapters s |}.
Definition set_outputs (v : list Output) (s : AutoModel) : AutoModel :=
  {| inputs := inputs s; outputs := v; seed := seed s; tuner := tuner s;
     _split_dataset := _split_dataset s; _heads := _heads s;
     _input_adapters := _input_adapters s; _output_adapters := _output_adapters s |}.
Definition set_seed (v : option Z) (s : AutoModel) : AutoModel :=
  {| inputs := inputs s; outputs := outputs s; seed := v; tuner := tuner s;
     _split_dataset := _split_dataset s; _heads := _heads s;
     _input_adapters := _input_adapters s; _output_adapters := _output_adapters s |}.
Definition set_tuner (v : option Tuner) (s : AutoModel) : AutoModel :=
  {| inputs := inputs s; outputs := outputs s; seed := seed s; tuner := v;
     _split_dataset := _split_dataset s; _heads := _heads s;
     _input_adapters := _input_adapters s; _output_adapters := _output_adapters s |}.
Definition set_split_dataset (v : bool) (s : AutoModel) : AutoModel :=
  {| inputs := inputs s; outputs := outputs s; seed := seed s; tuner := tuner s;
     _split_dataset := v; _heads := _heads s;
     _input_adapters := _input_adapters s; _output_adapters := _output_adapters s |}.
Definition set_heads (v : list Block) (s : AutoModel) : AutoModel :=
  {| inputs := inputs s; outputs := outputs s; seed := seed s; tuner := tuner s;
     _split_dataset := _split_dataset s; _heads := v;
     _input_adapters := _input_adapters s; _output_adapters := _output_adapters s |}.
Definition set_input_adapters (v : list Adapter) (s : AutoModel) : AutoModel :=
  {| inputs := inputs s; outputs := outputs s; seed := seed s; tuner := tuner s;
     _split_dataset := _split_dataset s; _heads := _heads s;
     _input_adapters := v; _output_adapters := _output_adapters s |}.
Definition set_output_adapters (v : list Adapter) (s : AutoModel) : AutoModel :=
  {| inputs := inputs s; outputs := outputs s; seed := seed s; tuner := tuner s;
     _split_dataset := _split_dataset s; _heads := _heads s;
     _input_adapters := _input_adapters s; _output_adapters := v |}.

(** ** Tuner selection *)

Definition TUNER_CLASSES : gmap string TunerClass :=
  {[ "bayesian" := BayesianOptimization;
     "random" := RandomSearch;
     "hyperband" := Hyperband;
     "greedy" := Greedy ]}.

(** The double quote character, for the literal quotes of the messages. *)
Definition dq : string := String "034"%char EmptyString.

(** What [get_tuner_class] may be handed: a string, or an object of any
    other type, of which only the text that [str.format] prints for it
    matters (for a class, [<class 'module.Name'>]). *)
Inductive TunerValue :=
| ValueStr (s : string)
| ValueOther (formatted : string).

(** [{tuner}] inside the message. *)
Definition format_tuner (t : TunerValue) : string :=
  match t with
  | ValueStr s => s
  | ValueOther formatted => formatted
  end.

Definition invalid_tuner_message (t : TunerValue) : string :=
  "The value " +:+ format_tuner t +:+
  " passed for argument tuner is invalid, expected one of " +:+
  dq +:+ "greedy" +:+ dq +:+ ", " +:+
  dq +:+ "random" +:+ dq +:+ ", " +:+
  dq +:+ "hyperband" +:+ dq +:+ ", " +:+
  dq +:+ "bayesian" +:+ dq +:+ ".".

Definition get_tuner_class (t : TunerValue) : exn + TunerClass :=
  match t with
  | ValueStr s =>
      match TUNER_CLASSES !! s with
      | Some c => inr c
      | None => inl (ValueError (invalid_tuner_message t))
      end
  | ValueOther _ => inl (ValueError (invalid_tuner_message t))
  end.

(** ** Graph assembly *)

(** [hypermodels.C()]: a new block object. *)
Definition new_block (c : BlockClass) : M Block :=
  i <- fresh ;;
  let b := {| block_id := i; block_class := c |} in
  emit (NewBlock b) ;;;
  ret b.

(** Modelled from the spec: [Block.__call__] is not part of the sources;
    applying a block to nodes yields one new node produced by that block
    (the call also registers the block with the nodes it consumes). *)
Definition call_block (b : Block) (args : list Node) : M Node :=
  i <- fresh ;;
  let n := {| node_id := i; node_class := PlainNode; in_blocks := [b] |} in
  emit (CallBlock b args n) ;;;
  ret n.

(** Modelled from the spec: how [Graph] finds its nodes is not part of the
    sources.  The wiring is what the calls of blocks made so far have
    registered.  A call creates its result, so the calls are recorded in an
    order in which one pass finds every node that can be reached: [reached]
    gives the identities of the nodes reached from [seen]. *)
Fixpoint reached (history : list Event) (seen : list nat) : list nat :=
  match history with
  | [] => seen
  | CallBlock _ args result :: history' =>
      if existsb (fun a => bool_decide (node_id a ∈ seen)) args
      then reached history' (node_id result :: seen)
      else reached history' seen
  | _ :: history' => reached history' seen
  end.

Definition reaches (history : list Event) (a b : Node) : bool :=
  bool_decide (node_id b ∈ reached history [node_id a]).

(** Modelled from the spec: every input leads to an output and every output
    is reached from an input. *)
Definition connected (history : list Event) (ins outs : list Node) : bool :=
  forallb (fun i => existsb (reaches history i) outs) ins
  && forallb (fun o => existsb (fun i => reaches history i o) ins) outs.

(** Modelled from the spec: the boundaries a [Graph] accepts.  The wiring
    is looked at when there is an input and an output to connect. *)
Definition graph_accepted (history : list Event) (ins outs : list Node) : bool :=
  match ins, outs with
  | [], _ | _, [] => true
  | _, _ => connected history ins outs
  end.

(** Modelled from the spec: the constructor of [Graph] is not part of the
    sources; it records the declared boundary, and fails when an input or an
    output is left unconnected by the existing wiring. *)
Definition new_graph (ins outs : list Node) : M Graph.t :=
  history <- get_log ;;
  if graph_accepted history ins outs then
    let g := {| Graph.inputs := ins; Graph.outputs := outs |} in
    emit (NewGraph g) ;;;
    ret g
  else raise (ValueError "Inputs and outputs not connected.").

(** One [if isinstance(...)] of the dispatch loop. *)
Definition encode_if (input_node : Node) (c : NodeClass) (enc : BlockClass)
    (middle_nodes : list Node) : M (list Node) :=
  if isinstance_input input_node c then
    b <- new_block enc ;;
    n <- call_block b [input_node] ;;
    ret (middle_nodes ++ [n])
  else ret middle_nodes.

Definition dispatch (input_node : Node) (middle_nodes : list Node) : M (list Node) :=
  m1 <- encode_if input_node TextInput TextBlock middle_nodes ;;
  m2 <- encode_if input_node ImageInput ImageBlock m1 ;;
  m3 <- encode_if input_node StructuredDataInput StructuredDataBlock m2 ;;
  encode_if input_node TimeseriesInput TimeseriesBlock m3.

(** [output_blocks(output_node)]: only a block can be called. *)
Definition call_output (output_node : Node) (o : Output) : M Node :=
  match o with
  | OutBlock b => call_block b [output_node]
  | OutNode _ => raise (TypeError "'Node' object is not callable")
  end.

Definition _assemble : M Graph.t :=
  s <- get_self ;;
  let inputs := inputs s in
  let outputs := outputs s in
  middle_nodes <- for_each inputs dispatch [] ;;
  output_node <-
    (if bool_decide (1 < length middle_nodes) then
       b <- new_block Merge ;; call_block b middle_nodes
     else
       match middle_nodes !! 0 with
       | Some n => ret n
       | None => raise (IndexError "list index out of range")
       end) ;;
  outputs <- comprehension (call_output output_node) outputs ;;
  new_graph inputs outputs.

(** [Graph(inputs=self.inputs, outputs=self.outputs)] in the functional
    branch, where every output is a node. *)
Definition output_nodes (outs : list Output) : list Node :=
  omap (fun o => match o with OutNode n => Some n | OutBlock _ => None end) outs.

Definition _build_graph : M Graph.t :=
  s <- get_self ;;
  if forallb isinstance_Node (outputs s) then
    new_graph (inputs s) (output_nodes (outputs s))
  else if forallb isinstance_Head (outputs s) then
    graph <- _assemble ;;
    set_self (set_outputs (map OutNode (Graph.outputs graph))) ;;;
    ret graph
  else raise (UnboundLocalError "graph").

(** ** Construction *)

Record InitArgs := {
  arg_inputs : nest Node;
  arg_outputs : nest Output;
  arg_preprocessors : option (list nat);
  arg_project_name : string;
  arg_max_trials : nat;
  arg_directory : option string;
  arg_objective : string;
  arg_tuner : TunerArg;
  arg_overwrite : bool;
  arg_seed : option Z }.

(** Truth value of [seed]: [None] and [0] are false. *)
Definition seed_truthy (sd : option Z) : bool :=
  match sd with
  | Some z => negb (z =? 0)%Z
  | None => false
  end.

(** The seeds [np.random.seed] takes: numpy is not part of the sources; it
    accepts an integer between 0 and 2**32 - 1 and raises a [ValueError] for
    any other. *)
Definition np_seed_accepted (z : Z) : bool := (0 <=? z)%Z && (z <? 2 ^ 32)%Z.

Definition np_seed_message : string := "Seed must be between 0 and 2**32 - 1".

Definition seed_generators (sd : option Z) : M unit :=
  match sd with
  | Some z =>
      if negb (z =? 0)%Z then
        emit (np_random_seed z) ;;;
        (if np_seed_accepted z then ret tt
         else raise (ValueError np_seed_message)) ;;;
        emit (tf_random_set_seed z)
      else ret tt
  | None => ret tt
  end.

(** [output_node.in_blocks[0]] *)
Definition first_in_block (o : Output) : M Block :=
  match o with
  | OutNode n =>
      match in_blocks n !! 0 with
      | Some b => ret b
      | None => raise (IndexError "list index out of range")
      end
  | OutBlock _ => raise (AttributeError "in_blocks")
  end.

Definition __init__ (args : InitArgs) : M unit :=
  set_self (fun _ => set_inputs (nest_flatten (arg_inputs args)) blank) ;;;
  set_self (set_outputs (nest_flatten (arg_outputs args))) ;;;
  set_self (set_seed (arg_seed args)) ;;;
  seed_generators (arg_seed args) ;;;
  graph <- _build_graph ;;
  tuner_cls <-
    match arg_tuner args with
    | TunerStr s => lift (get_tuner_class (ValueStr s))
    | TunerType c => ret c
    end ;;
  s <- get_self ;;
  let t := {| tuner_class := tuner_cls;
              hypermodel := graph;
              preprocessors := arg_preprocessors args;
              overwrite := arg_overwrite args;
              objective := arg_objective args;
              max_trials := arg_max_trials args;
              directory := arg_directory args;
              tuner_seed := seed s;
              project_name := arg_project_name args |} in
  emit (NewTuner t) ;;;
  set_self (set_tuner (Some t)) ;;;
  set_self (set_split_dataset false) ;;;
  s <- get_self ;;
  heads <- comprehension first_in_block (outputs s) ;;
  set_self (set_heads heads) ;;;
  set_self (set_input_adapters (map (fun n => AdapterOf (HmNode n)) (inputs s))) ;;;
  set_self (set_output_adapters (map (fun b => AdapterOf (HmBlock b)) heads)).

(** ** Datasets *)

(** Modelled from the spec: [data_utils.dataset_shape] is not part of the
    sources; it returns the element structure of the dataset. *)
Definition dataset_shape (d : Dataset) : list (nest Shape) := element_spec d.

(** A function mapped over a dataset, applied to the components of an
    element whatever the components hold. *)
Definition ElementFn := forall A : Type, list (nest A) -> exn + list (nest A).

(** [dataset.map(f)]: the function is traced on the element structure, where
    a failure of the function surfaces, and then applies to every row. *)
Definition ds_map (f : ElementFn) (d : Dataset) : exn + Dataset :=
  match f Shape (element_spec d) with
  | inl e => inl e
  | inr spec =>
      inr {| element_spec := spec;
             rows := omap (fun r => match f ndarray r with
                                    | inr r' => Some r'
                                    | inl _ => None
                                    end) (rows d);
             batches := batches d |}
  end.

(** Calling a two-parameter lambda on [given] components, [given] not 2. *)
Definition lambda_arity_error (given : nat) : exn :=
  if (2 <? given)%nat then
    TypeError ("<lambda>() takes 2 positional arguments but " +:+ pretty given +:+
               " were given")
  else TypeError "<lambda>() missing required positional arguments".

(** [lambda a, b: a] and [lambda x, y: x] *)
Definition lambda_fst : ElementFn := fun A cs =>
  match cs with
  | [a; b] => inr (as_components a)
  | _ => inl (lambda_arity_error (length cs))
  end.

(** [lambda a, b: b] *)
Definition lambda_snd : ElementFn := fun A cs =>
  match cs with
  | [a; b] => inr (as_components b)
  | _ => inl (lambda_arity_error (length cs))
  end.

(** [lambda *x: x[0]] *)
Definition lambda_first : ElementFn := fun A cs =>
  match cs !! 0 with
  | Some c => inr (as_components c)
  | None => inl (IndexError "tuple index out of range")
  end.

(** [lambda *a: nest.flatten(a)[index]] *)
Definition lambda_flatten_index (index : nat) : ElementFn := fun A cs =>
  match flat_map nest_flatten cs !! index with
  | Some v => inr [Leaf v]
  | None => inl (IndexError "list index out of range")
  end.

(** [lambda *x: (x, )] *)
Definition lambda_wrap : ElementFn := fun A cs => inr [Tuple cs].

(** The dataset that zips [d] with [ds']: elements are paired up in order,
    up to the shortest dataset. *)
Definition zipped (d : Dataset) (ds' : list Dataset) : Dataset :=
  {| element_spec := map (fun d => as_element (element_spec d)) (d :: ds');
     rows := fold_left
               (fun acc d' => zip_with (fun r e => r ++ [as_element e]) acc (rows d'))
               ds' (map (fun e => [as_element e]) (rows d));
     batches := [] |}.

Definition nothing_to_zip : exn := InvalidArgumentError "ZipDataset".

(** [tf.data.Dataset.zip(tuple(datasets))]; TensorFlow refuses an empty
    tuple. *)
Definition zip_datasets (ds : list Dataset) : exn + Dataset :=
  match ds with
  | [] => inl nothing_to_zip
  | d :: ds' => inr (zipped d ds')
  end.

(** [dataset.batch(batch_size)] *)
Definition ds_batch (batch_size : nat) (d : Dataset) : Dataset :=
  {| element_spec := element_spec d; rows := rows d;
     batches := batches d ++ [batch_size] |}.

(** Number of validation rows for a dataset of [n] rows and a fraction. *)
Definition validation_size (n : nat) (fraction : Q) : nat :=
  Z.to_nat ((Z.of_nat n * Qnum fraction) / Z.pos (Qden fraction)).

(** Modelled from the spec: [data_utils.split_dataset] is not part of the
    sources.  The dataset is cut once, in its current order: the trailing
    [fraction] of the rows is the validation partition, what precedes it is
    the training partition. *)
Definition split_dataset (d : Dataset) (fraction : Q) : Dataset * Dataset :=
  let n := length (rows d) in
  let train_size := n - validation_size n fraction in
  ({| element_spec := element_spec d; rows := take train_size (rows d);
      batches := batches d |},
   {| element_spec := element_spec d; rows := drop train_size (rows d);
      batches := batches d |}).

(** ** External collaborators *)

(** What adapters and the best model hand back is opaque to the module; it
    may depend on every call made before (adapters are stateful). *)
Class Collaborators := {
  fit_transform_result : list Event -> Adapter -> PyVal -> Dataset;
  transform_result : list Event -> Adapter -> PyVal -> Dataset;
  postprocess_result : list Event -> Adapter -> PyVal -> PyVal;
  predict_result : list Event -> Dataset -> PyVal;
  evaluate_result : list Event -> Dataset -> PyVal }.

(** [self.tuner], an attribute set by [__init__]. *)
Definition get_tuner : M Tuner :=
  s <- get_self ;;
  match tuner s with
  | Some t => ret t
  | None => raise (AttributeError "tuner")
  end.

Section Pipeline.
Context {ext : Collaborators}.

(** ** Data pipeline *)

(** The body of the loop of [_adapt]. *)
Definition adapt_source (fit : bool) (source : PyVal) (hm : HyperModel)
    (adapter : Adapter) : M Dataset :=
  history <- get_log ;;
  if fit then
    emit (fit_transform adapter source) ;;;
    emit (config_from_adapter hm adapter) ;;;
    ret (fit_transform_result history adapter source)
  else
    emit (transform adapter source) ;;;
    ret (transform_result history adapter source).

(** [zip(sources, hms, adapters)] stops at the shortest of the three. *)
Fixpoint adapt_loop (fit : bool) (sources : list PyVal) (hms : list HyperModel)
    (adapters : list Adapter) : M (list Dataset) :=
  match sources, hms, adapters with
  | source :: sources', hm :: hms', adapter :: adapters' =>
      d <- adapt_source fit source hm adapter ;;
      ds <- adapt_loop fit sources' hms' adapters' ;;
      ret (d :: ds)
  | _, _, _ => ret []
  end.

Definition _adapt (sources : PyVal) (fit : bool) (hms : list HyperModel)
    (adapters : list Adapter) : M Dataset :=
  let sources := flatten sources in
  adapted <- adapt_loop fit sources hms adapters ;;
  match adapted with
  | [d] => ret d
  | _ => lift (zip_datasets adapted)
  end.

Definition in_val_of (validation : bool) : string :=
  if validation then " in validation_data" else EmptyString.

(** [[a.shape for a in values]] *)
Fixpoint shapes_of (values : list PyVal) : exn + list Shape :=
  match values with
  | [] => inr []
  | PyArray a :: values' =>
      match shapes_of values' with
      | inr shapes => inr (shape a :: shapes)
      | inl e => inl e
      end
  | PyNone :: _ => inl (AttributeError "'NoneType' object has no attribute 'shape'")
  | _ :: _ => inl (AttributeError "object has no attribute 'shape'")
  end.

(** [a, b = values] *)
Definition unpack2 {A} (values : list A) : exn + A * A :=
  match values with
  | [a; b] => inr (a, b)
  | _ :: _ :: _ => inl (ValueError "too many values to unpack (expected 2)")
  | _ => inl (ValueError ("not enough values to unpack (expected 2, got " +:+
                          pretty (length values) +:+ ")"))
  end.

Definition expect_arrays_message (side in_val : string) (expected got : nat) : string :=
  "Expect " +:+ side +:+ in_val +:+ " to have " +:+ pretty expected +:+
  " arrays, but got " +:+ pretty got.

Definition expect_y_none_message (in_val : string) : string :=
  "Expect y is None when x is tf.data.Dataset" +:+ in_val +:+ ".".

Definition _check_data_format (x y : PyVal) (validation predict : bool) : M unit :=
  s <- get_self ;;
  let in_val := in_val_of validation in
  (if is_Dataset x && negb (is_None y) then
     raise (ValueError (expect_y_none_message in_val))
   else ret tt) ;;;
  '(x_shapes, y_shapes) <-
    match x with
    | PyDataset d =>
        if negb predict then
          '(x_shapes, y_shapes) <- lift (unpack2 (dataset_shape d)) ;;
          ret (nest_flatten x_shapes, nest_flatten y_shapes)
        else
          ret (flat_map nest_flatten (dataset_shape d), [])
    | _ =>
        x_shapes <- lift (shapes_of (flatten x)) ;;
        if negb predict then
          y_shapes <- lift (shapes_of (flatten y)) ;;
          ret (x_shapes, y_shapes)
        else ret (x_shapes, [])
    end ;;
  (if negb (length x_shapes =? length (inputs s))%nat then
     raise (ValueError (expect_arrays_message "x" in_val
                          (length (inputs s)) (length x_shapes)))
   else ret tt) ;;;
  if negb predict && negb (length y_shapes =? length (outputs s))%nat then
    raise (ValueError (expect_arrays_message "y" in_val
                         (length (outputs s)) (length y_shapes)))
  else ret tt.

(** The slots of a dataset: [[d.map(lambda *a: nest.flatten(a)[index])
    for index in range(count)]] *)
Definition slots (d : Dataset) (count : nat) : M (list PyVal) :=
  comprehension
    (fun index => d' <- lift (ds_map (lambda_flatten_index index) d) ;;
                  ret (PyDataset d'))
    (seq 0 count).

Definition _process_xy (x y : PyVal) (fit validation predict : bool) : M Dataset :=
  _check_data_format x y validation predict ;;;
  s <- get_self ;;
  '(x, y) <-
    match x with
    | PyDataset dataset =>
        if negb predict then
          y <- lift (ds_map lambda_snd dataset) ;;
          y <- slots y (length (outputs s)) ;;
          x <- lift (ds_map lambda_fst dataset) ;;
          x <- slots x (length (inputs s)) ;;
          ret (PySeq x, PySeq y)
        else
          x <- slots dataset (length (inputs s)) ;;
          ret (PySeq x, y)
    | _ => ret (x, y)
    end ;;
  x <- _adapt x fit (map HmNode (inputs s)) (_input_adapters s) ;;
  if negb predict then
    y <- _adapt y fit (map HmBlock (_heads s)) (_output_adapters s) ;;
    lift (zip_datasets [x; y])
  else if (length (inputs s) =? 1)%nat then ret x
  else lift (ds_map lambda_wrap x).

(** [validation_data]: absent, a dataset, or a tuple to be unpacked as
    [(x_val, y_val)]. *)
Inductive ValidationData :=
| ValNone
| ValDataset (d : Dataset)
| ValTuple (items : list PyVal).

Definition validation_data_truthy (v : ValidationData) : bool :=
  match v with
  | ValNone => false
  | ValDataset _ => true
  | ValTuple items => negb (length items =? 0)%nat
  end.

(** [validation_split]: [None] or a fraction; [0.0] is false. *)
Definition validation_split_truthy (v : option Q) : bool :=
  match v with
  | None => false
  | Some q => negb (Qnum q =? 0)%Z
  end.

Definition _prepare_data (x y : PyVal) (validation_data : ValidationData)
    (validation_split : option Q) : M (Dataset * ValidationData) :=
  (if negb (validation_data_truthy validation_data)
      && negb (validation_split_truthy validation_split) then
     raise (ValueError "Either validation_data or validation_split should be provided.")
   else ret tt) ;;;
  _check_data_format x y false false ;;;
  dataset <- _process_xy x y true false false ;;
  validation_data <-
    (if validation_data_truthy validation_data then
       set_self (set_split_dataset false) ;;;
       '(x_val, y_val) <-
         match validation_data with
         | ValDataset d => ret (PyDataset d, PyNone)
         | ValTuple items => lift (unpack2 items)
         | ValNone => raise (TypeError "cannot unpack non-iterable NoneType object")
         end ;;
       v <- _process_xy x_val y_val false true false ;;
       ret (ValDataset v)
     else ret validation_data) ;;
  match validation_data, validation_split with
  | ValNone, Some fraction =>
      if validation_split_truthy validation_split then
        set_self (set_split_dataset true) ;;;
        let '(dataset, v) := split_dataset dataset fraction in
        ret (dataset, ValDataset v)
      else ret (dataset, validation_data)
  | _, _ => ret (dataset, validation_data)
  end.

Definition fit (x y : PyVal) (batch_size : nat) (epochs : option nat)
    (validation_split : option Q) (validation_data : ValidationData) : M unit :=
  '(dataset, validation_data) <- _prepare_data x y validation_data validation_split ;;
  let dataset := ds_batch batch_size dataset in
  validation_data <-
    match validation_data with
    | ValDataset v => ret (ds_batch batch_size v)
    | ValTuple _ => raise (AttributeError "'tuple' object has no attribute 'batch'")
    | ValNone => raise (AttributeError "'NoneType' object has no attribute 'batch'")
    end ;;
  _ <- get_tuner ;;
  s <- get_self ;;
  emit (tuner_search dataset epochs validation_data (_split_dataset s)).

Definition _get_x (dataset : Dataset) : M Dataset :=
  s <- get_self ;;
  let shapes := dataset_shape dataset in
  emit (py_print (pretty (length shapes))) ;;;
  if bool_decide (length shapes <= 1) then
    lift (ds_map lambda_first dataset)
  else if existsb is_tuple shapes then
    lift (ds_map lambda_fst dataset)
  else if (length shapes =? 2)%nat && (length (inputs s) =? 1)%nat
          && (length (outputs s) =? 1)%nat then
    lift (ds_map lambda_fst dataset)
  else ret dataset.

Definition _postprocess (y : PyVal) : M (list PyVal) :=
  s <- get_self ;;
  let y := flatten y in
  comprehension
    (fun '(temp_y, adapter) =>
       history <- get_log ;;
       emit (postprocess adapter temp_y) ;;;
       ret (postprocess_result history adapter temp_y))
    (zip y (_output_adapters s)).

Definition predict (x : PyVal) (batch_size : nat) : M PyVal :=
  s <- get_self ;;
  dataset <-
    match x with
    | PyDataset d =>
        x <- _get_x d ;;
        _process_xy (PyDataset x) PyNone false false true
    | _ => _adapt x false (map HmNode (inputs s)) (_input_adapters s)
    end ;;
  let dataset := ds_batch batch_size dataset in
  _ <- get_tuner ;;
  emit get_best_model ;;;
  history <- get_log ;;
  emit (model_predict dataset) ;;;
  y <- _postprocess (predict_result history dataset) ;;
  match y with
  | [y0] => ret y0
  | _ => ret (PySeq y)
  end.

Definition evaluate (x y : PyVal) (batch_size : nat) : M PyVal :=
  dataset <- _process_xy x y false false false ;;
  let dataset := ds_batch batch_size dataset in
  _ <- get_tuner ;;
  emit get_best_model ;;;
  history <- get_log ;;
  emit (model_evaluate dataset) ;;;
  ret (evaluate_result history dataset).

End Pipeline.

(** ** A reference account of inferred assembly

    The assembly the spec describes, as plain functions of the declared
    inputs and heads and of the next free object identity; the theorems
    below relate [_assemble] to it. *)

(** The default encoder of an input kind, if the kind is recognised. *)
Definition encoder_of (c : NodeClass) : option BlockClass :=
  match c with
  | TextInput => Some TextBlock
  | ImageInput => Some ImageBlock
  | StructuredDataInput => Some StructuredDataBlock
  | TimeseriesInput => Some TimeseriesBlock
  | PlainNode | Input => None
  end.

(** The node a block yields when it is the object allocated at [id - 1] and
    its result is allocated at [id]. *)
Definition produced (b : Block) (id : nat) : Node :=
  {| node_id := id; node_class := PlainNode; in_blocks := [b] |}.

(** One encoder per recognised input, in declaration order: the encoder, the
    input it is applied to, and the middle node it produces. *)
Fixpoint encoders (ins : list Node) (id : nat) : list (Block * Node * Node) :=
  match ins with
  | [] => []
  | n :: ins' =>
      match encoder_of (node_class n) with
      | Some enc =>
          let b := {| block_id := id; block_class := enc |} in
          (b, n, produced b (S id)) :: encoders ins' (S (S id))
      | None => encoders ins' id
      end
  end.

Definition middle_nodes_of (encs : list (Block * Node * Node)) : list Node :=
  map snd encs.

Definition encoder_events (encs : list (Block * Node * Node)) : list Event :=
  flat_map (fun '(b, n, m) => [NewBlock b; CallBlock b [n] m]) encs.

(** The blocks among the declared outputs. *)
Definition output_blocks (outs : list Output) : list Block :=
  omap (fun o => match o with OutBlock b => Some b | OutNode _ => None end) outs.

(** Every head applied to the combined node: the nodes produced, allocated
    from [id] on. *)
Fixpoint head_nodes (heads : list Block) (id : nat) : list Node :=
  match heads with
  | [] => []
  | h :: heads' => produced h id :: head_nodes heads' (S id)
  end.

Fixpoint head_events (combined : Node) (heads : list Block) (id : nat) : list Event :=
  match heads with
  | [] => []
  | h :: heads' =>
      CallBlock h [combined] (produced h id) :: head_events combined heads' (S id)
  end.

(** The state once the dispatch loop has run, and the middle nodes it
    leaves. *)
Definition after_dispatch (st : State) : State :=
  {| self := self st;
     next_id := next_id st + 2 * length (encoders (inputs (self st)) (next_id st));
     log := log st ++ encoder_events (encoders (inputs (self st)) (next_id st)) |}.

Definition middle_nodes (st : State) : list Node :=
  middle_nodes_of (encoders (inputs (self st)) (next_id st)).

(** The combined node: none without middle nodes, the middle node itself
    when it is alone, the result of one new Merge block otherwise.  Returned
    with the events of the step and the next free identity. *)
Definition combine (mids : list Node) (id : nat) : option (Node * list Event * nat) :=
  match mids with
  | [] => None
  | [n] => Some (n, [], id)
  | _ :: _ :: _ =>
      let merge := {| block_id := id; block_class := Merge |} in
      let combined := produced merge (S id) in
      Some (combined, [NewBlock merge; CallBlock merge mids combined], S (S id))
  end.

(** The input kinds the assembler has an encoder for. *)
Definition recognised (n : Node) : bool :=
  match encoder_of (node_class n) with Some _ => true | None => false end.

(** A declaration that mixes nodes and bare heads. *)
Definition mixed (outs : list Output) : Prop :=
  (exists o, In o outs /\ isinstance_Node o = true) /\
  (exists o, In o outs /\ isinstance_Head o = true).

(** ** Stages of [__init__], [_prepare_data] and [fit]

    The methods cut at the points where the theorems look at the state: what
    remains to be done from there, and the state reached there. *)

(** The seeds with which construction gets past the seeding. *)
Definition seed_accepted (sd : option Z) : bool :=
  match sd with
  | Some z => np_seed_accepted z
  | None => true
  end.

(** The calls of the seeding: none for a false seed, [np.random.seed] alone
    when numpy refuses the seed. *)
Definition seeding (sd : option Z) : list Event :=
  match sd with
  | Some z =>
      if negb (z =? 0)%Z then
        if np_seed_accepted z then [np_random_seed z; tf_random_set_seed z]
        else [np_random_seed z]
      else []
  | None => []
  end.

(** The state in which the seeding leaves [__init__]: where it starts
    building the graph, or where it fails on the seed. *)
Definition init_state (args : InitArgs) (st : State) : State :=
  {| self := set_seed (arg_seed args)
               (set_outputs (nest_flatten (arg_outputs args))
                  (set_inputs (nest_flatten (arg_inputs args)) blank));
     next_id := next_id st;
     log := log st ++ seeding (arg_seed args) |}.

(** What [__init__] does once the graph is built and the tuner class is
    known, and what it does once the graph is built. *)
Definition install_tuner (args : InitArgs) (graph : Graph.t) (tuner_cls : TunerClass)
    : M unit :=
  s <- get_self ;;
  let t := {| tuner_class := tuner_cls;
              hypermodel := graph;
              preprocessors := arg_preprocessors args;
              overwrite := arg_overwrite args;
              objective := arg_objective args;
              max_trials := arg_max_trials args;
              directory := arg_directory args;
              tuner_seed := seed s;
              project_name := arg_project_name args |} in
  emit (NewTuner t) ;;;
  set_self (set_tuner (Some t)) ;;;
  set_self (set_split_dataset false) ;;;
  s <- get_self ;;
  heads <- comprehension first_in_block (outputs s) ;;
  set_self (set_heads heads) ;;;
  set_self (set_input_adapters (map (fun n => AdapterOf (HmNode n)) (inputs s))) ;;;
  set_self (set_output_adapters (map (fun b => AdapterOf (HmBlock b)) heads)).

Definition init_finish (args : InitArgs) (graph : Graph.t) : M unit :=
  tuner_cls <-
    match arg_tuner args with
    | TunerStr s => lift (get_tuner_class (ValueStr s))
    | TunerType c => ret c
    end ;;
  install_tuner args graph tuner_cls.

(** The tuner [__init__] creates, and the object once the tuner is stored. *)
Definition tuner_for (args : InitArgs) (graph : Graph.t) (tuner_cls : TunerClass)
    (s : AutoModel) : Tuner :=
  {| tuner_class := tuner_cls;
     hypermodel := graph;
     preprocessors := arg_preprocessors args;
     overwrite := arg_overwrite args;
     objective := arg_objective args;
     max_trials := arg_max_trials args;
     directory := arg_directory args;
     tuner_seed := seed s;
     project_name := arg_project_name args |}.

Definition with_tuner (t : Tuner) (st : State) : State :=
  {| self := set_split_dataset false (set_tuner (Some t) (self st));
     next_id := next_id st;
     log := log st ++ [NewTuner t] |}.

(** ** A reference account of the arity check

    The number of elements the check counts in [x] and in [y]: the leaves of
    the nested lists of arrays, or the leaves of the two halves of the element
    structure of a dataset of pairs (of the whole structure in predict mode).
    There is no count when a leaf is not an array or when the dataset is not
    made of pairs. *)
Definition is_array (v : PyVal) : bool :=
  match v with PyArray _ => true | _ => false end.

Definition leaf_count (v : PyVal) : option nat :=
  if forallb is_array (flatten v) then Some (length (flatten v)) else None.

Definition x_count (x : PyVal) (predict : bool) : option nat :=
  match x with
  | PyDataset d =>
      if predict then Some (length (flat_map nest_flatten (element_spec d)))
      else match element_spec d with
           | [cx; _] => Some (length (nest_flatten cx))
           | _ => None
           end
  | _ => leaf_count x
  end.

Definition y_count (x y : PyVal) : option nat :=
  match x with
  | PyDataset d =>
      match element_spec d with
      | [_; cy] => Some (length (nest_flatten cy))
      | _ => None
      end
  | _ => leaf_count y
  end.

(** The error of a failed arity check: [x] is reported before [y]. *)
Definition mismatch_error (validation : bool) (n_in n_out nx ny : nat) : exn :=
  if negb (nx =? n_in)%nat then
    ValueError (expect_arrays_message "x" (in_val_of validation) n_in nx)
  else
    ValueError (expect_arrays_message "y" (in_val_of validation) n_out ny).

(** The state in which [_prepare_data] turns to the validation data. *)
Definition validation_start (st : State) : State :=
  {| self := set_split_dataset false (self st); next_id := next_id st; log := log st |}.

(** [validation_data] as the pair [(x_val, y_val)] that [_prepare_data]
    processes. *)
Definition validation_pair (v : ValidationData) : option (PyVal * PyVal) :=
  match v with
  | ValDataset d => Some (PyDataset d, PyNone)
  | ValTuple [x_val; y_val] => Some (x_val, y_val)
  | _ => None
  end.

(** What [_prepare_data] does once the training data is processed. *)
Definition prepare_validation {ext : Collaborators} (validation_data : ValidationData)
    (validation_split : option Q) (dataset : Dataset) : M (Dataset * ValidationData) :=
  validation_data <-
    (if validation_data_truthy validation_data then
       set_self (set_split_dataset false) ;;;
       '(x_val, y_val) <-
         match validation_data with
         | ValDataset d => ret (PyDataset d, PyNone)
         | ValTuple items => lift (unpack2 items)
         | ValNone => raise (TypeError "cannot unpack non-iterable NoneType object")
         end ;;
       v <- _process_xy x_val y_val false true false ;;
       ret (ValDataset v)
     else ret validation_data) ;;
  match validation_data, validation_split with
  | ValNone, Some fraction =>
      if validation_split_truthy validation_split then
        set_self (set_split_dataset true) ;;;
        let '(dataset, v) := split_dataset dataset fraction in
        ret (dataset, ValDataset v)
      else ret (dataset, validation_data)
  | _, _ => ret (dataset, validation_data)
  end.

(** What [_process_xy] does once it holds [x] and [y] slot by slot. *)
Definition adapt_xy {ext : Collaborators} (x y : PyVal) (fit predict : bool)
    (s : AutoModel) : M Dataset :=
  x <- _adapt x fit (map HmNode (inputs s)) (_input_adapters s) ;;
  if negb predict then
    y <- _adapt y fit (map HmBlock (_heads s)) (_output_adapters s) ;;
    lift (zip_datasets [x; y])
  else if (length (inputs s) =? 1)%nat then ret x
  else lift (ds_map lambda_wrap x).

(** What [fit] does with the prepared datasets. *)
Definition search_on (batch_size : nat) (epochs : option nat)
    (prepared : Dataset * ValidationData) : M unit :=
  let '(dataset, validation_data) := prepared in
  let dataset := ds_batch batch_size dataset in
  validation_data <-
    match validation_data with
    | ValDataset v => ret (ds_batch batch_size v)
    | ValTuple _ => raise (AttributeError "'tuple' object has no attribute 'batch'")
    | ValNone => raise (AttributeError "'NoneType' object has no attribute 'batch'")
    end ;;
  _ <- get_tuner ;;
  s <- get_self ;;
  emit (tuner_search dataset epochs validation_data (_split_dataset s)).

(** The state after [_get_x] has printed the number of components. *)
Definition printed (d : Dataset) (st : State) : State :=
  {| self := self st; next_id := next_id st;
     log := log st ++ [py_print (pretty (length (element_spec d)))] |}.

(** ** Vocabulary of the statements *)

(** The x part of a row of pairs. *)
Definition x_part (row : list (nest ndarray)) : option (list (nest ndarray)) :=
  match row with
  | [a; _] => Some (as_components a)
  | _ => None
  end.

(** A computation that only adds to the trace. *)
Definition keeps_self {A} (c : M A) : Prop :=
  forall st, self (snd (c st)) = self st /\ next_id (snd (c st)) = next_id st.

(** A computation that leaves the state as it found it. *)
Definition reads_only {A} (c : M A) : Prop := forall st, snd (c st) = st.

Definition is_seeding (e : Event) : bool :=
  match e with
  | np_random_seed _ | tf_random_set_seed _ => true
  | _ => false
  end.

(** The calls made to adapters, in order. *)
Definition is_adapter_call (e : Event) : bool :=
  match e with
  | fit_transform _ _ | transform _ _ | config_from_adapter _ _ => true
  | _ => false
  end.

Definition is_block_instantiation (e : Event) : bool :=
  match e with NewBlock _ => true | _ => false end.

(** The events of wiring blocks: instantiations and applications. *)
Definition is_wiring (e : Event) : bool :=
  match e with NewBlock _ | CallBlock _ _ _ => true | _ => false end.

(** [s] occurs in [msg]. *)
Definition mentions (s msg : string) : Prop :=
  exists before after, msg = before +:+ s +:+ after.

(** ** Concrete objects used in the examples *)

Module Demo.

(** An adapter that slices a one-dimensional array into one row per entry
    and hands a dataset back unchanged. *)
Definition slices (v : PyVal) : Dataset :=
  match v with
  | PyArray a =>
      {| element_spec := [Leaf (tail (shape a))];
         rows := map (fun z => [Leaf {| shape := tail (shape a); data := [z] |}])
                     (data a);
         batches := [] |}
  | PyDataset d => d
  | _ => {| element_spec := []; rows := []; batches := [] |}
  end.

Definition ext : Collaborators :=
  {| fit_transform_result := fun _ _ v => slices v;
     transform_result := fun _ _ v => slices v;
     postprocess_result := fun _ _ v => v;
     predict_result := fun _ _ => PySeq [PyArray {| shape := [1]; data := [7%Z] |}];
     evaluate_result := fun _ _ => PyNone |}.

Definition image_input : Node :=
  {| node_id := 0; node_class := ImageInput; in_blocks := [] |}.
Definition text_input : Node :=
  {| node_id := 1; node_class := TextInput; in_blocks := [] |}.
Definition generic_input : Node :=
  {| node_id := 2; node_class := Input; in_blocks := [] |}.
Definition classification_head : Block :=
  {| block_id := 3; block_class := HeadClass "classification" |}.
Definition regression_head : Block :=
  {| block_id := 4; block_class := HeadClass "regression" |}.
(** A node wired by hand: the output of [classification_head]. *)
Definition wired_output : Node :=
  {| node_id := 5; node_class := PlainNode; in_blocks := [classification_head] |}.

Definition start : State := {| self := blank; next_id := 6; log := [] |}.

(** The session in which [classification_head] has been applied by hand to
    [image_input], giving [wired_output]. *)
Definition wired : State :=
  {| self := blank; next_id := 6;
     log := [CallBlock classification_head [image_input] wired_output] |}.

Definition make_args (ins : list Node) (outs : list Output) (t : TunerArg)
    (sd : option Z) : InitArgs :=
  {| arg_inputs := Tuple (map Leaf ins);
     arg_outputs := Tuple (map Leaf outs);
     arg_preprocessors := None;
     arg_project_name := "auto_model";
     arg_max_trials := 100;
     arg_directory := None;
     arg_objective := "val_loss";
     arg_tuner := t;
     arg_overwrite := false;
     arg_seed := sd |}.

(** The object as [__init__] has it when it starts building the graph. *)
Definition declared (ins : list Node) (outs : list Output) : State :=
  init_state (make_args ins outs (TunerStr "greedy") None) start.

(** One image input, one classification head, the default tuner. *)
Definition single_io : State :=
  snd (__init__ (make_args [image_input] [OutBlock classification_head]
                           (TunerStr "greedy") None) start).


Definition vector (l : list Z) : PyVal :=
  PyArray {| shape := [length l]; data := l |}.

Definition ten : PyVal := vector [1; 2; 3; 4; 5; 6; 7; 8; 9; 10]%Z.
Definition three : PyVal := vector [11; 12; 13]%Z.

(** A dataset of [(x, y)] pairs of scalars. *)
Definition pairs : Dataset :=
  {| element_spec := [Leaf []; Leaf []];
     rows := map (fun z => [Leaf {| shape := []; data := [z] |};
                            Leaf {| shape := []; data := [(z * 2)%Z] |}])
                 [1; 2; 3; 4; 5]%Z;
     batches := [] |}.

(** A dataset whose elements are [((a, b), c, d)]. *)
Definition triples : Dataset :=
  {| element_spec := [Tuple [Leaf []; Leaf []]; Leaf []; Leaf []];
     rows := [];
     batches := [8] |}.

(** Two arrays for the one input of [single_io]. *)
Definition two_arrays : PyVal := PySeq [ten; ten].

(** The training data [ten, ten] processed on [single_io], in fit mode. *)
Definition empty_dataset : Dataset :=
  {| element_spec := []; rows := []; batches := [] |}.
Definition fitted_dataset : Dataset :=
  match fst (_process_xy (ext:=ext) ten ten true false false single_io) with
  | inr d => d
  | inl _ => empty_dataset
  end.
Definition fitted : State :=
  snd (_process_xy (ext:=ext) ten ten true false false single_io).


End Demo.

(** ** Model export *)

(** The handle [self.tuner.get_best_model()] returns. *)
Inductive Model := BestModelOf (t : Tuner).

Definition export_model : M Model :=
  t <- get_tuner ;;
  emit get_best_model ;;;
  ret (BestModelOf t).

(** ** Vocabulary of the further statements *)

(** A state with events added to its trace and nothing else changed. *)
Definition extended (st : State) (evs : list Event) : State :=
  {| self := self st; next_id := next_id st; log := log st ++ evs |}.

(** The adapter calls of one pass of [_adapt]: the slots are taken in order
    as long as there is a source, a hyper-model and an adapter. *)
Fixpoint adapt_events (fit : bool) (sources : list PyVal) (hms : list HyperModel)
    (adapters : list Adapter) : list Event :=
  match sources, hms, adapters with
  | source :: sources', hm :: hms', adapter :: adapters' =>
      (if fit then [fit_transform adapter source; config_from_adapter hm adapter]
       else [transform adapter source])
      ++ adapt_events fit sources' hms' adapters'
  | _, _, _ => []
  end.

(** The number of slots one pass of [_adapt] goes through. *)
Definition adapted_count (sources : list PyVal) (hms : list HyperModel)
    (adapters : list Adapter) : nat :=
  length sources `min` (length hms `min` length adapters).


(** The events that fit something: an adapter or the search. *)
Definition is_fitting (e : Event) : bool :=
  match e with
  | fit_transform _ _ | config_from_adapter _ _ | tuner_search _ _ _ _ => true
  | _ => false
  end.

(** A computation that leaves the object alone and adds to the trace only
    events accepted by [P]. *)
Definition emits_only (P : Event -> bool) {A} (c : M A) : Prop :=
  forall st, exists evs, snd (c st) = extended st evs /\ forallb P evs = true.

(** Two objects that differ at most in [_split_dataset]. *)
Definition same_but_split (s s' : AutoModel) : Prop :=
  set_split_dataset false s' = set_split_dataset false s.

Definition assigns_split_only {A} (c : M A) : Prop :=
  forall st, same_but_split (self st) (self (snd (c st)))
             /\ next_id (snd (c st)) = next_id st.

(** What [__init__] leaves on an object with at least one input and one
    output: a head per output and an adapter per input and per head. *)
Definition adapters_in_place (s : AutoModel) : Prop :=
  inputs s <> [] /\ outputs s <> []
  /\ length (_input_adapters s) = length (inputs s)
  /\ length (_heads s) = length (outputs s)
  /\ length (_output_adapters s) = length (outputs s).

(** The head of an output, as [__init__] reads it. *)
Definition head_of (o : Output) (h : Block) : Prop :=
  exists n, o = OutNode n /\ in_blocks n !! 0 = Some h.

(** The names [get_tuner_class] knows, with their classes. *)
Definition known_tuners : list (string * TunerClass) :=
  [("bayesian", BayesianOptimization); ("random", RandomSearch);
   ("hyperband", Hyperband); ("greedy", Greedy)].

(** The flattened shapes a dataset offers for [x] and, outside predict mode,
    for [y]. *)
Definition x_leaves (d : Dataset) (predict : bool) : list Shape :=
  if predict then flat_map nest_flatten (element_spec d)
  else match element_spec d with
       | [cx; _] => nest_flatten cx
       | _ => []
       end.

Definition y_leaves (d : Dataset) : list Shape :=
  match element_spec d with
  | [_; cy] => nest_flatten cy
  | _ => []
  end.

(** * Properties *)

(** ** Stepping through the monad *)

Lemma bind_inr {A B} (c : M A) (k : A -> M B) st a st' :
  c st = (inr a, st') -> bind c k st = k a st'.
Proof. intros H. unfold bind. now rewrite H. Qed.

Lemma bind_inl {A B} (c : M A) (k : A -> M B) st e st' :
  c st = (inl e, st') -> bind c k st = (inl e, st').
Proof. intros H. unfold bind. now rewrite H. Qed.

Lemma state_eta st :
  {| self := self st; next_id := next_id st; log := log st |} = st.
Proof. now destruct st. Qed.

(** ** The dispatch loop and the application of the heads *)

Lemma dispatch_run n mids st :
  dispatch n mids st =
  match encoder_of (node_class n) with
  | Some enc =>
      let b := {| block_id := next_id st; block_class := enc |} in
      let m := produced b (S (next_id st)) in
      (inr (mids ++ [m]),
       {| self := self st; next_id := S (S (next_id st));
          log := (log st ++ [NewBlock b]) ++ [CallBlock b [n] m] |})
  | None => (inr mids, st)
  end.
Proof.
  destruct st as [s i l], n as [k c bs].
  destruct c; reflexivity.
Qed.

Lemma dispatch_loop ins : forall mids st,
  for_each ins dispatch mids st =
  (inr (mids ++ middle_nodes_of (encoders ins (next_id st))),
   {| self := self st;
      next_id := next_id st + 2 * length (encoders ins (next_id st));
      log := log st ++ encoder_events (encoders ins (next_id st)) |}).
Proof.
  induction ins as [|n ins IH]; intros mids st; simpl.
  - unfold ret. rewrite !app_nil_r, Nat.add_0_r. now rewrite state_eta.
  - unfold bind. rewrite dispatch_run.
    destruct (encoder_of (node_class n)) as [enc|]; simpl.
    + rewrite IH. simpl. f_equal.
      * now rewrite <- app_assoc.
      * f_equal; [lia|]. now rewrite <- !app_assoc.
    + apply IH.
Qed.

Lemma heads_run node outs : forall st,
  forallb isinstance_Head outs = true ->
  comprehension (call_output node) outs st =
  (inr (head_nodes (output_blocks outs) (next_id st)),
   {| self := self st;
      next_id := next_id st + length outs;
      log := log st ++ head_events node (output_blocks outs) (next_id st) |}).
Proof.
  induction outs as [|o outs IH]; intros st Hall; simpl.
  - unfold ret. rewrite app_nil_r, Nat.add_0_r. now rewrite state_eta.
  - simpl in Hall. apply andb_prop in Hall as [Ho Hall].
    destruct o as [n|b]; [discriminate|]. simpl.
    unfold bind at 1. unfold call_block, bind, fresh, emit, ret. simpl.
    rewrite IH by assumption. simpl. f_equal. f_equal; [lia|].
    now rewrite <- app_assoc.
Qed.

Lemma heads_length outs :
  forallb isinstance_Head outs = true -> length (output_blocks outs) = length outs.
Proof.
  induction outs as [|[n|b] outs IH]; simpl; intros H; try discriminate; [done|].
  apply andb_prop in H as [_ H]. now rewrite IH.
Qed.

Lemma head_nodes_length heads id : length (head_nodes heads id) = length heads.
Proof. revert id. induction heads as [|h heads IH]; intros id; simpl; [done|]. now rewrite IH. Qed.

Lemma assemble_unfold st :
  _assemble st =
  bind (if bool_decide (1 < length (middle_nodes st)) then
          b <- new_block Merge ;; call_block b (middle_nodes st)
        else
          match middle_nodes st !! 0 with
          | Some n => ret n
          | None => raise (IndexError "list index out of range")
          end)
       (fun output_node =>
          outs <- comprehension (call_output output_node) (outputs (self st)) ;;
          new_graph (inputs (self st)) outs)
       (after_dispatch st).
Proof.
  unfold _assemble. unfold bind at 1. unfold get_self.
  erewrite bind_inr by apply dispatch_loop. reflexivity.
Qed.

Lemma new_graph_run ins outs st :
  new_graph ins outs st =
  if graph_accepted (log st) ins outs then
    (inr {| Graph.inputs := ins; Graph.outputs := outs |},
     {| self := self st; next_id := next_id st;
        log := log st ++ [NewGraph {| Graph.inputs := ins; Graph.outputs := outs |}] |})
  else (inl (ValueError "Inputs and outputs not connected."), st).
Proof. unfold new_graph, bind, get_log. now destruct (graph_accepted _ _ _). Qed.

Lemma assemble_run st :
  forallb isinstance_Head (outputs (self st)) = true ->
  _assemble st =
  match combine (middle_nodes st) (next_id (after_dispatch st)) with
  | None => (inl (IndexError "list index out of range"), after_dispatch st)
  | Some (combined, evs, id) =>
      let heads := output_blocks (outputs (self st)) in
      new_graph (inputs (self st)) (head_nodes heads id)
        {| self := self st;
           next_id := id + length heads;
           log := log (after_dispatch st) ++ evs ++ head_events combined heads id |}
  end.
Proof.
  intros Hheads. rewrite assemble_unfold.
  pose proof (eq_refl : self (after_dispatch st) = self st) as Hs.
  set (st1 := after_dispatch st) in *. clearbody st1.
  destruct (middle_nodes st) as [|n [|n' rest]]; unfold combine.
  - reflexivity.
  - rewrite bool_decide_eq_false_2 by (simpl; lia).
    unfold bind at 1. change ([n] !! 0) with (Some n). unfold ret at 1.
    unfold bind at 1. rewrite heads_run by assumption.
    cbv beta iota zeta. rewrite heads_length, Hs by assumption. reflexivity.
  - rewrite bool_decide_eq_true_2 by (simpl; lia).
    unfold bind at 1. unfold new_block, call_block, bind, fresh, emit, ret. cbv beta iota.
    rewrite heads_run by assumption. cbv beta iota zeta.
    rewrite heads_length by assumption. simpl. rewrite Hs.
    rewrite <- !app_assoc. reflexivity.
Qed.

Lemma after_dispatch_no_encoder st :
  middle_nodes st = [] -> after_dispatch st = st.
Proof.
  unfold middle_nodes, middle_nodes_of, after_dispatch. intros H.
  apply (f_equal length) in H. rewrite length_map in H. simpl in H.
  destruct (encoders (inputs (self st)) (next_id st)); [|discriminate].
  simpl. rewrite app_nil_r, Nat.add_0_r. apply state_eta.
Qed.

Lemma encoders_recognised ins : forall id,
  map (fun '(b, n, _) => (block_class b, n)) (encoders ins id) =
  omap (fun n => (fun enc => (enc, n)) <$> encoder_of (node_class n)) ins.
Proof.
  induction ins as [|n ins IH]; intros id; simpl; [done|].
  destruct (encoder_of (node_class n)); simpl; now rewrite IH.
Qed.

Lemma encoders_count ins : forall id,
  length (encoders ins id) = length (List.filter recognised ins).
Proof.
  induction ins as [|n ins IH]; intros id; [done|].
  simpl. unfold recognised at 1.
  destruct (encoder_of (node_class n)); simpl; now rewrite IH.
Qed.

Lemma mixed_neither outs :
  mixed outs ->
  forallb isinstance_Node outs = false /\ forallb isinstance_Head outs = false.
Proof.
  intros [[n [Hn Hnode]] [h [Hh Hhead]]]. split.
  - destruct (forallb isinstance_Node outs) eqn:E; [|done].
    rewrite forallb_forall in E. specialize (E h Hh).
    destruct h; simpl in *; congruence.
  - destruct (forallb isinstance_Head outs) eqn:E; [|done].
    rewrite forallb_forall in E. specialize (E n Hn).
    destruct n; simpl in *; congruence.
Qed.

Lemma init_run args st :
  __init__ args st =
  if seed_accepted (arg_seed args)
  then bind _build_graph (init_finish args) (init_state args st)
  else (inl (ValueError np_seed_message), init_state args st).
Proof.
  unfold __init__, init_state.
  unfold bind at 1. simpl. unfold bind at 1. simpl. unfold bind at 1. simpl.
  unfold bind at 1. unfold seed_generators, seeding, seed_accepted.
  destruct (arg_seed args) as [z|]; simpl.
  - destruct (z =? 0)%Z eqn:Hz; simpl.
    + apply Z.eqb_eq in Hz. subst z. simpl. rewrite app_nil_r. reflexivity.
    + unfold bind at 1, emit at 1. unfold bind at 1.
      destruct (np_seed_accepted z); simpl.
      * rewrite <- app_assoc. reflexivity.
      * reflexivity.
  - rewrite app_nil_r. reflexivity.
Qed.

(** ** Connected boundaries *)

Lemma reached_app h1 h2 : forall seen,
  reached (h1 ++ h2) seen = reached h2 (reached h1 seen).
Proof.
  induction h1 as [|e h1 IH]; intros seen; [reflexivity|].
  destruct e; simpl; auto. destruct (existsb _ _); apply IH.
Qed.

Lemma reached_incl h : forall seen x, x ∈ seen -> x ∈ reached h seen.
Proof.
  induction h as [|e h IH]; intros seen x Hx; [exact Hx|].
  destruct e; simpl; auto.
  destruct (existsb _ _); apply IH; [now apply list_elem_of_further|exact Hx].
Qed.

(** A call made on a node already reached adds its result. *)
Lemma reached_fires h b args r : forall seen a,
  In (CallBlock b args r) h -> In a args -> node_id a ∈ seen ->
  node_id r ∈ reached h seen.
Proof.
  induction h as [|e h IH]; intros seen a Hin Ha Hseen; [destruct Hin|].
  destruct Hin as [->|Hin].
  - simpl.
    assert (Hex : existsb (fun a => bool_decide (node_id a ∈ seen)) args = true).
    { apply existsb_exists. exists a. split; [exact Ha|]. now apply bool_decide_eq_true. }
    rewrite Hex. apply reached_incl, list_elem_of_here.
  - destruct e; simpl; try (eapply IH; eassumption).
    destruct (existsb _ _); eapply IH; try eassumption.
    now apply list_elem_of_further.
Qed.

Lemma encoders_cover ins : forall id n,
  In n ins -> recognised n = true -> exists b m, In (b, n, m) (encoders ins id).
Proof.
  induction ins as [|a ins IH]; intros id n Hin Hrec; [destruct Hin|].
  simpl. destruct Hin as [->|Hin].
  - unfold recognised in Hrec.
    destruct (encoder_of (node_class n)) as [enc|]; [|discriminate].
    eexists _, _. left. reflexivity.
  - destruct (encoder_of (node_class a)) as [enc|]; [|now apply IH].
    destruct (IH (S (S id)) n Hin Hrec) as (b' & m' & H). exists b', m'. now right.
Qed.

Lemma encoder_events_cover encs b n m :
  In (b, n, m) encs -> In (CallBlock b [n] m) (encoder_events encs).
Proof.
  intros Hin. unfold encoder_events. apply in_flat_map.
  exists (b, n, m). split; [exact Hin|]. simpl. auto.
Qed.

Lemma combine_reached mids id combined evs id' seen m :
  combine mids id = Some (combined, evs, id') ->
  In m mids -> node_id m ∈ seen -> node_id combined ∈ reached evs seen.
Proof.
  destruct mids as [|n [|n' rest]]; simpl; intros H Hin Hseen;
    inversion H; subst; clear H.
  - destruct Hin as [<-|[]]. exact Hseen.
  - eapply reached_fires; [right; left; reflexivity|exact Hin|exact Hseen].
Qed.

Lemma head_events_cover combined heads : forall id o,
  In o (head_nodes heads id) ->
  exists h, In (CallBlock h [combined] o) (head_events combined heads id).
Proof.
  induction heads as [|h heads IH]; intros id o Hin; [destruct Hin|].
  simpl in *. destruct Hin as [<-|Hin].
  - exists h. now left.
  - destruct (IH _ _ Hin) as [h' H]. exists h'. now right.
Qed.

(** Once every input has its encoder, every head node is reached from every
    input: the boundary of the assembled graph is connected. *)
Lemma assembled_connected h0 ins heads id0 id1 combined evs id :
  ins <> [] -> heads <> [] -> forallb recognised ins = true ->
  combine (middle_nodes_of (encoders ins id0)) id1 = Some (combined, evs, id) ->
  graph_accepted
    ((h0 ++ encoder_events (encoders ins id0)) ++ evs ++ head_events combined heads id)
    ins (head_nodes heads id) = true.
Proof.
  intros Hins Hheads Hrec Hc.
  set (h := (h0 ++ _) ++ _ ++ _).
  assert (Hall : forall i o, In i ins -> In o (head_nodes heads id) ->
                             reaches h i o = true).
  { intros i o Hi Ho. unfold reaches. apply bool_decide_eq_true.
    rewrite forallb_forall in Hrec.
    destruct (encoders_cover ins id0 i Hi (Hrec i Hi)) as (b & m & Henc).
    destruct (head_events_cover combined heads id o Ho) as [hd Hhd].
    subst h. rewrite !reached_app.
    eapply reached_fires; [exact Hhd|left; reflexivity|].
    eapply combine_reached; [exact Hc|exact (in_map snd _ _ Henc)|].
    eapply reached_fires;
      [apply encoder_events_cover; exact Henc|left; reflexivity|].
    apply reached_incl, list_elem_of_here. }
  unfold graph_accepted, connected.
  destruct ins as [|i0 ins']; [congruence|].
  destruct heads as [|hd0 heads']; [congruence|].
  cbn [head_nodes] in *. apply andb_true_intro. split.
  - apply forallb_forall. intros i Hi. apply existsb_exists.
    eexists. split; [left; reflexivity|]. apply Hall; [exact Hi|now left].
  - apply forallb_forall. intros o Ho. apply existsb_exists.
    exists i0. split; [now left|]. apply Hall; [now left|exact Ho].
Qed.

(** ** The three branches of [_build_graph] *)

Lemma build_graph_functional st :
  forallb isinstance_Node (outputs (self st)) = true ->
  _build_graph st = new_graph (inputs (self st)) (output_nodes (outputs (self st))) st.
Proof. intros H. unfold _build_graph, bind, get_self. now rewrite H. Qed.

Lemma build_graph_inferred st :
  forallb isinstance_Node (outputs (self st)) = false ->
  forallb isinstance_Head (outputs (self st)) = true ->
  _build_graph st =
  (graph <- _assemble ;;
   set_self (set_outputs (map OutNode (Graph.outputs graph))) ;;;
   ret graph) st.
Proof. intros H1 H2. unfold _build_graph at 1, bind at 1, get_self. now rewrite H1, H2. Qed.

Lemma build_graph_neither st :
  forallb isinstance_Node (outputs (self st)) = false ->
  forallb isinstance_Head (outputs (self st)) = false ->
  _build_graph st = (inl (UnboundLocalError "graph"), st).
Proof. intros H1 H2. unfold _build_graph, bind, get_self. now rewrite H1, H2. Qed.

Lemma output_nodes_all outs :
  forallb isinstance_Node outs = true -> map OutNode (output_nodes outs) = outs.
Proof.
  induction outs as [|[n|b] outs IH]; simpl; intros H; try discriminate; [done|].
  now rewrite IH.
Qed.

Lemma heads_are_not_nodes outs :
  outs <> [] -> forallb isinstance_Head outs = true ->
  forallb isinstance_Node outs = false.
Proof. destruct outs as [|[n|b] outs]; simpl; intros Hne H; congruence. Qed.

Lemma combine_wiring mids id combined evs id' :
  combine mids id = Some (combined, evs, id') -> forallb is_wiring evs = true.
Proof.
  destruct mids as [|n [|n' rest]]; simpl; intros H; inversion H; reflexivity.
Qed.

Lemma encoder_events_wiring encs : forallb is_wiring (encoder_events encs) = true.
Proof. induction encs as [|[[b n] m] encs IH]; simpl; auto. Qed.

Lemma head_events_wiring combined heads : forall id,
  forallb is_wiring (head_events combined heads id) = true.
Proof. induction heads as [|h heads IH]; intros id; simpl; auto. Qed.

(** [_build_graph] fails where it started, or fails on the boundary after
    wiring events only, or ends by constructing the graph after wiring events
    only, touching no attribute but [outputs]. *)
Lemma build_graph_cases st :
  (exists e, _build_graph st = (inl e, st)) \/
  (exists l st1,
     _build_graph st = (inl (ValueError "Inputs and outputs not connected."), st1)
     /\ log st1 = log st ++ l
     /\ forallb is_wiring l = true
     /\ self st1 = self st) \/
  (exists g l st1,
     _build_graph st = (inr g, st1)
     /\ log st1 = log st ++ l ++ [NewGraph g]
     /\ forallb is_wiring l = true
     /\ self st1 = set_outputs (map OutNode (Graph.outputs g)) (self st)
     /\ Graph.inputs g = inputs (self st)).
Proof.
  destruct (forallb isinstance_Node (outputs (self st))) eqn:Hn.
  - rewrite build_graph_functional, new_graph_run by assumption.
    destruct (graph_accepted _ _ _); [right; right|left; eauto].
    eexists _, [], _. simpl. repeat split. cbn [self Graph.outputs].
    rewrite output_nodes_all by assumption.
    now destruct st as [[] ? ?].
  - destruct (forallb isinstance_Head (outputs (self st))) eqn:Hh.
    + pose proof (build_graph_inferred st Hn Hh) as Hb.
      unfold bind at 1 in Hb. rewrite assemble_run in Hb by assumption.
      destruct (combine (middle_nodes st) (next_id (after_dispatch st)))
        as [[[combined evs] id]|] eqn:Hc.
      * cbv zeta in Hb. rewrite new_graph_run in Hb.
        assert (Hw : forallb is_wiring
                       (encoder_events (encoders (inputs (self st)) (next_id st))
                        ++ evs
                        ++ head_events combined (output_blocks (outputs (self st))) id)
                     = true).
        { rewrite !forallb_app, encoder_events_wiring, head_events_wiring.
          now rewrite (combine_wiring _ _ _ _ _ Hc). }
        cbn [log after_dispatch] in Hb.
        destruct (graph_accepted _ _ _).
        -- right; right. unfold bind, set_self, ret in Hb. simpl in Hb.
           eexists _, (encoder_events (encoders (inputs (self st)) (next_id st))
                       ++ evs
                       ++ head_events combined (output_blocks (outputs (self st))) id), _.
           split; [exact Hb|]. simpl.
           split; [now rewrite <- !app_assoc|].
           split; [exact Hw|split; reflexivity].
        -- right; left.
           eexists (encoder_events (encoders (inputs (self st)) (next_id st))
                    ++ evs
                    ++ head_events combined (output_blocks (outputs (self st))) id), _.
           split; [exact Hb|]. simpl.
           split; [now rewrite <- !app_assoc|]. split; [exact Hw|reflexivity].
      * left. destruct (middle_nodes st) as [|n [|n' rest]] eqn:Hm; try discriminate.
        rewrite after_dispatch_no_encoder in Hb by assumption. eauto.
    + left. rewrite build_graph_neither by assumption. eauto.
Qed.

(** ** Graph assembly *)

(** C2.  When the declared outputs mix nodes and bare heads, [_build_graph]
    takes neither branch and raises nothing of its own: the read of the
    local [graph], which no branch has assigned, fails with the
    interpreter's [UnboundLocalError].  With a seed that numpy takes (or a
    false one) this is how construction ends, in the state the seeding left:
    no block is instantiated, no object is allocated, no tuner is created.
    With any other seed [np.random.seed] has failed before. *)
Theorem mixed_outputs_rejected args st :
  mixed (nest_flatten (arg_outputs args)) ->
  _build_graph (init_state args st)
    = (inl (UnboundLocalError "graph"), init_state args st)
  /\ __init__ args st
     = (inl (if seed_accepted (arg_seed args) then UnboundLocalError "graph"
             else ValueError np_seed_message),
        init_state args st)
  /\ List.filter is_wiring (log (init_state args st)) = List.filter is_wiring (log st)
  /\ next_id (init_state args st) = next_id st
  /\ tuner (self (init_state args st)) = None.
Proof.
  intros Hmixed. apply mixed_neither in Hmixed as [Hn Hh].
  assert (Hb : _build_graph (init_state args st)
               = (inl (UnboundLocalError "graph"), init_state args st))
    by (apply build_graph_neither; assumption).
  split; [exact Hb|]. split.
  - rewrite init_run. destruct (seed_accepted (arg_seed args)); [|reflexivity].
    now apply bind_inl.
  - split; [|split; reflexivity]. simpl. rewrite List.filter_app.
    unfold seeding. destruct (arg_seed args) as [z|]; simpl.
    + destruct (z =? 0)%Z; simpl; [now rewrite app_nil_r|].
      destruct (np_seed_accepted z); simpl; now rewrite app_nil_r.
    + now rewrite app_nil_r.
Qed.

Lemma mixed_outputs_rejected_witness :
  mixed [OutNode Demo.wired_output; OutBlock Demo.regression_head]
  /\ __init__ (Demo.make_args [Demo.image_input]
                 [OutNode Demo.wired_output; OutBlock Demo.regression_head]
                 (TunerStr "greedy") (Some 7%Z)) Demo.wired
     = (inl (UnboundLocalError "graph"),
        init_state (Demo.make_args [Demo.image_input]
                      [OutNode Demo.wired_output; OutBlock Demo.regression_head]
                      (TunerStr "greedy") (Some 7%Z)) Demo.wired).
Proof.
  assert (Hmixed : mixed [OutNode Demo.wired_output; OutBlock Demo.regression_head]).
  { split; [exists (OutNode Demo.wired_output)|exists (OutBlock Demo.regression_head)];
      (split; [simpl; auto|reflexivity]). }
  split; [exact Hmixed|].
  pose proof (mixed_outputs_rejected
                (Demo.make_args [Demo.image_input]
                   [OutNode Demo.wired_output; OutBlock Demo.regression_head]
                   (TunerStr "greedy") (Some 7%Z)) Demo.wired Hmixed) as [_ [H _]].
  exact H.
Defined.

(** C3.  After the dispatch loop, [_assemble] has one middle node per input
    of a recognised kind.  With none it stops on [middle_nodes[0]], an
    [IndexError] of the interpreter, in the state it started from.  With
    exactly one it applies the heads to that node; with more it instantiates
    one Merge block, applies it to all the middle nodes, and applies the
    heads to its result.  It ends with the construction of the graph from
    the declared inputs and the nodes of the heads. *)
Theorem assemble_merge_policy st :
  forallb isinstance_Head (outputs (self st)) = true ->
  let st1 := after_dispatch st in
  let heads := output_blocks (outputs (self st)) in
  length (middle_nodes st) = length (List.filter recognised (inputs (self st)))
  /\ match middle_nodes st with
     | [] => _assemble st = (inl (IndexError "list index out of range"), st)
     | [n] =>
         _assemble st =
         new_graph (inputs (self st)) (head_nodes heads (next_id st1))
           {| self := self st;
              next_id := next_id st1 + length heads;
              log := log st1 ++ head_events n heads (next_id st1) |}
     | mids =>
         let merge := {| block_id := next_id st1; block_class := Merge |} in
         let combined := produced merge (S (next_id st1)) in
         _assemble st =
         new_graph (inputs (self st)) (head_nodes heads (S (S (next_id st1))))
           {| self := self st;
              next_id := S (S (next_id st1)) + length heads;
              log := log st1 ++ [NewBlock merge; CallBlock merge mids combined]
                     ++ head_events combined heads (S (S (next_id st1))) |}
     end.
Proof.
  intros Hheads st1 heads. split.
  - unfold middle_nodes, middle_nodes_of. rewrite length_map. apply encoders_count.
  - pose proof (assemble_run st Hheads) as Hrun.
    destruct (middle_nodes st) as [|n [|n' rest]] eqn:Hm.
    + simpl in Hrun. now rewrite after_dispatch_no_encoder in Hrun.
    + exact Hrun.
    + exact Hrun.
Qed.

Lemma assemble_merge_policy_witness :
  fst (_assemble (Demo.declared [Demo.generic_input]
                    [OutBlock Demo.classification_head]))
  = inl (IndexError "list index out of range")
  /\ List.filter is_block_instantiation
       (log (snd (_assemble (Demo.declared [Demo.image_input; Demo.text_input]
                               [OutBlock Demo.classification_head]))))
     = [NewBlock {| block_id := 6; block_class := ImageBlock |};
        NewBlock {| block_id := 8; block_class := TextBlock |};
        NewBlock {| block_id := 10; block_class := Merge |}].
Proof.
  split.
  - pose proof (assemble_merge_policy
                  (Demo.declared [Demo.generic_input]
                     [OutBlock Demo.classification_head]) eq_refl) as [_ H].
    simpl in H. now rewrite H.
  - pose proof (assemble_merge_policy
                  (Demo.declared [Demo.image_input; Demo.text_input]
                     [OutBlock Demo.classification_head]) eq_refl) as [_ H].
    simpl in H. rewrite H. reflexivity.
Defined.

Lemma recognised_middle_node ins id :
  (exists n, In n ins /\ recognised n = true) -> encoders ins id <> [].
Proof.
  intros [n [Hin Hrec]] Hnil. apply (f_equal length) in Hnil.
  rewrite encoders_count in Hnil. simpl in Hnil.
  assert (Hf : In n (List.filter recognised ins)) by (apply filter_In; auto).
  destruct (List.filter recognised ins); [contradiction|discriminate].
Qed.

(** C6 (as amended).  In inferred mode (the declared outputs are bare heads,
    at least one of them) with every declared input of a recognised kind (at
    least one), [_build_graph] applies one default encoder, chosen by the
    kind, to each input, in order; applies every declared head to the
    combined node; constructs the graph from the declared inputs and the
    nodes the heads produce; and assigns these nodes to [self.outputs]. *)
Theorem inferred_assembly st :
  outputs (self st) <> [] ->
  forallb isinstance_Head (outputs (self st)) = true ->
  inputs (self st) <> [] ->
  forallb recognised (inputs (self st)) = true ->
  let encs := encoders (inputs (self st)) (next_id st) in
  let heads := output_blocks (outputs (self st)) in
  exists combined evs id g st',
    combine (middle_nodes_of encs) (next_id (after_dispatch st)) = Some (combined, evs, id)
    /\ _build_graph st = (inr g, st')
    /\ map (fun '(b, n, _) => (block_class b, n)) encs
       = omap (fun n => (fun enc => (enc, n)) <$> encoder_of (node_class n))
              (inputs (self st))
    /\ length encs = length (inputs (self st))
    /\ log st' = log st ++ encoder_events encs ++ evs
                 ++ head_events combined heads id ++ [NewGraph g]
    /\ length heads = length (outputs (self st))
    /\ Graph.inputs g = inputs (self st)
    /\ Graph.outputs g = head_nodes heads id
    /\ outputs (self st') = map OutNode (Graph.outputs g)
    /\ inputs (self st') = inputs (self st).
Proof.
  intros Hne Hheads Hins Hrec encs heads.
  pose proof (heads_are_not_nodes _ Hne Hheads) as Hn.
  pose proof (build_graph_inferred st Hn Hheads) as Hb.
  unfold bind at 1 in Hb. rewrite assemble_run in Hb by assumption.
  fold encs in Hb. unfold middle_nodes in Hb. fold encs in Hb.
  assert (Hsome : exists n, In n (inputs (self st)) /\ recognised n = true).
  { destruct (inputs (self st)) as [|n ins]; [congruence|].
    exists n. split; [now left|]. simpl in Hrec. now apply andb_prop in Hrec as [? _]. }
  destruct (combine (middle_nodes_of encs) (next_id (after_dispatch st)))
    as [[[combined evs] id]|] eqn:Hc.
  - exists combined, evs, id. cbv zeta in Hb. rewrite new_graph_run in Hb.
    cbn [log after_dispatch] in Hb. fold encs heads in Hb.
    assert (Hheads' : heads <> []).
    { intros Hnil. apply (f_equal length) in Hnil. unfold heads in Hnil.
      rewrite heads_length in Hnil by assumption.
      destruct (outputs (self st)); [congruence|discriminate]. }
    pose proof (assembled_connected (log st) (inputs (self st)) heads (next_id st)
                  _ combined evs id Hins Hheads' Hrec Hc) as Hconn.
    fold encs in Hconn. rewrite Hconn in Hb.
    unfold bind, set_self, ret in Hb. simpl in Hb.
    eexists _, _. split; [reflexivity|]. split; [exact Hb|].
    split; [apply encoders_recognised|].
    split.
    { unfold encs. rewrite encoders_count. clear -Hrec.
      induction (inputs (self st)) as [|n ins IH]; [reflexivity|].
      simpl in *. apply andb_prop in Hrec as [-> Hrec]. simpl. now rewrite IH. }
    simpl. split; [now rewrite <- !app_assoc|].
    split; [now apply heads_length|]. repeat split.
  - exfalso. apply (recognised_middle_node _ (next_id st)) in Hsome.
    fold encs in Hsome. unfold middle_nodes_of in Hc.
    destruct encs as [|e [|e' encs']]; simpl in Hc; congruence.
Qed.

Lemma inferred_assembly_witness :
  let st := Demo.declared [Demo.image_input; Demo.text_input]
              [OutBlock Demo.classification_head; OutBlock Demo.regression_head] in
  exists g st', _build_graph st = (inr g, st')
                /\ outputs (self st') = map OutNode (Graph.outputs g)
                /\ length (Graph.outputs g) = 2.
Proof.
  intros st.
  assert (H1 : outputs (self st) <> []) by discriminate.
  assert (H3 : inputs (self st) <> []) by discriminate.
  destruct (inferred_assembly st H1 eq_refl H3 eq_refl)
    as (combined & evs & id & g & st' & _ & Hb & _ & _ & _ & Hlen & _ & Hout & Hself & _).
  exists g, st'. split; [exact Hb|]. split; [exact Hself|].
  rewrite Hout, head_nodes_length. exact Hlen.
Defined.

(** C6, the claim as stated fails: with an input of an unrecognised kind
    among the inputs, the encoders, the Merge block and the heads are
    instantiated and applied, but the graph is refused, since no block
    consumes that input, and [self.outputs] still holds the declared
    heads. *)
Lemma unrecognised_input_refused :
  let st := Demo.declared [Demo.image_input; Demo.generic_input; Demo.text_input]
              [OutBlock Demo.classification_head; OutBlock Demo.regression_head] in
  forallb isinstance_Head (outputs (self st)) = true
  /\ fst (_build_graph st) = inl (ValueError "Inputs and outputs not connected.")
  /\ outputs (self (snd (_build_graph st)))
     = [OutBlock Demo.classification_head; OutBlock Demo.regression_head]
  /\ List.filter is_block_instantiation (log (snd (_build_graph st)))
     = [NewBlock {| block_id := 6; block_class := ImageBlock |};
        NewBlock {| block_id := 8; block_class := TextBlock |};
        NewBlock {| block_id := 10; block_class := Merge |}]
  /\ List.filter (fun e => match e with NewGraph _ => true | _ => false end)
       (log (snd (_build_graph st))) = [].
Proof. vm_compute. repeat split. Qed.

(** ** Construction *)

Lemma first_in_block_pure o st : snd (first_in_block o st) = st.
Proof.
  destruct o as [n|b]; simpl; [|reflexivity].
  now destruct (in_blocks n !! 0).
Qed.

Lemma heads_of_outputs_pure outs st :
  snd (comprehension first_in_block outs st) = st.
Proof.
  induction outs as [|o outs IH]; simpl; [reflexivity|].
  unfold bind at 1. pose proof (first_in_block_pure o st) as Ho.
  destruct (first_in_block o st) as [[e|b] st1]; simpl in Ho; subst st1; [reflexivity|].
  unfold bind at 1. specialize IH.
  destruct (comprehension first_in_block outs st) as [[e|bs] st2]; simpl in IH; now subst st2.
Qed.

Lemma install_tuner_run args g cls st :
  let t := tuner_for args g cls (self st) in
  let st2 := with_tuner t st in
  match fst (comprehension first_in_block (outputs (self st)) st2) with
  | inl e => install_tuner args g cls st = (inl e, st2)
  | inr heads =>
      install_tuner args g cls st =
      (inr tt,
       {| self := set_output_adapters (map (fun b => AdapterOf (HmBlock b)) heads)
                    (set_input_adapters
                       (map (fun n => AdapterOf (HmNode n)) (inputs (self st)))
                       (set_heads heads (self st2)));
          next_id := next_id st;
          log := log st2 |})
  end.
Proof.
  intros t st2.
  pose proof (heads_of_outputs_pure (outputs (self st)) st2) as Hpure.
  assert (Hstep : install_tuner args g cls st =
     bind (comprehension first_in_block (outputs (self st)))
       (fun heads => set_self (set_heads heads) ;;;
          set_self (set_input_adapters (map (fun n => AdapterOf (HmNode n)) (inputs (self st)))) ;;;
          set_self (set_output_adapters (map (fun b => AdapterOf (HmBlock b)) heads))) st2)
    by reflexivity.
  destruct (comprehension first_in_block (outputs (self st)) st2)
    as [[e|heads] st3] eqn:Hc;
    simpl in Hpure; subst st3; cbn [fst]; rewrite Hstep;
    unfold bind at 1; rewrite Hc; reflexivity.
Qed.

Lemma string_app_assoc (a b c : string) : (a +:+ b) +:+ c = a +:+ (b +:+ c).
Proof.
  induction a as [|x a IH]; [reflexivity|].
  change (String x ((a +:+ b) +:+ c) = String x (a +:+ (b +:+ c))).
  now rewrite IH.
Qed.

Lemma mentions_here s rest : mentions s (s +:+ rest).
Proof. now exists EmptyString, rest. Qed.

Lemma mentions_app_r s a b : mentions s b -> mentions s (a +:+ b).
Proof.
  intros [before [after ->]]. exists (a +:+ before), after.
  now rewrite string_app_assoc.
Qed.

Lemma invalid_tuner_message_choices t :
  let msg := invalid_tuner_message t in
  mentions "greedy" msg /\ mentions "bayesian" msg
  /\ mentions "hyperband" msg /\ mentions "random" msg.
Proof.
  unfold invalid_tuner_message.
  repeat split; repeat first [apply mentions_here | apply mentions_app_r].
Qed.

Lemma unknown_tuner_lookup t :
  ~ In t ["greedy"; "bayesian"; "hyperband"; "random"] ->
  TUNER_CLASSES !! t = None.
Proof.
  intros Hnot. unfold TUNER_CLASSES.
  rewrite !lookup_insert_ne, lookup_singleton_ne; [reflexivity|..];
    intros <-; apply Hnot; simpl; auto.
Qed.

Lemma filter_seeding_seeding sd : List.filter is_seeding (seeding sd) = seeding sd.
Proof.
  unfold seeding. destruct sd as [z|]; [|reflexivity].
  destruct (z =? 0)%Z; [reflexivity|]. now destruct (np_seed_accepted z).
Qed.

Lemma wiring_is_not_seeding l :
  forallb is_wiring l = true -> List.filter is_seeding l = [].
Proof.
  induction l as [|e l IH]; simpl; [reflexivity|].
  intros H. apply andb_prop in H as [He Hl].
  destruct e; simpl in *; try discriminate; auto.
Qed.

Lemma init_finish_run args g st1 :
  init_finish args g st1 =
  match arg_tuner args with
  | TunerStr s =>
      match TUNER_CLASSES !! s with
      | Some c => install_tuner args g c st1
      | None => (inl (ValueError (invalid_tuner_message (ValueStr s))), st1)
      end
  | TunerType c => install_tuner args g c st1
  end.
Proof.
  unfold init_finish, bind. destruct (arg_tuner args) as [s|c]; [|reflexivity].
  unfold get_tuner_class. destruct (TUNER_CLASSES !! s); reflexivity.
Qed.

Lemma install_tuner_cases args g cls st1 :
  let t := tuner_for args g cls (self st1) in
  (exists e, install_tuner args g cls st1 = (inl e, with_tuner t st1)) \/
  (exists s', install_tuner args g cls st1
              = (inr tt, {| self := s'; next_id := next_id st1;
                            log := log st1 ++ [NewTuner t] |})
              /\ tuner s' = Some t /\ seed s' = seed (self st1)).
Proof.
  intros t.
  pose proof (install_tuner_run args g cls st1) as Hrun. cbv zeta in Hrun. fold t in Hrun.
  destruct (fst (comprehension first_in_block (outputs (self st1)) (with_tuner t st1)))
    as [e|heads]; [left; eauto|right].
  eexists. split; [exact Hrun|]. split; reflexivity.
Qed.

Lemma init_finish_cases args g st1 :
  (exists e, init_finish args g st1 = (inl e, st1)) \/
  (exists cls,
     let t := tuner_for args g cls (self st1) in
     (exists e, init_finish args g st1 = (inl e, with_tuner t st1)) \/
     (exists s', init_finish args g st1
                 = (inr tt, {| self := s'; next_id := next_id st1;
                               log := log st1 ++ [NewTuner t] |})
                 /\ tuner s' = Some t /\ seed s' = seed (self st1))).
Proof.
  rewrite init_finish_run.
  destruct (arg_tuner args) as [s|c].
  - destruct (TUNER_CLASSES !! s) as [c|]; [|left; eauto].
    right. exists c. apply install_tuner_cases.
  - right. exists c. apply install_tuner_cases.
Qed.

(** C4 (as amended).  A tuner given as a string outside the four known names
    makes [__init__] raise the [ValueError] whose message lists the four
    names, once the seeding and [_build_graph] are through: when the graph
    is built the error is raised in the state the graph construction leaves,
    with its wiring events and the new graph in the trace and no tuner
    stored.  When [np.random.seed] refuses the seed, or when graph
    construction fails, that failure is raised instead. *)
Theorem unknown_tuner_rejected args st t :
  arg_tuner args = TunerStr t ->
  ~ In t ["greedy"; "bayesian"; "hyperband"; "random"] ->
  let msg := invalid_tuner_message (ValueStr t) in
  (mentions "greedy" msg /\ mentions "bayesian" msg
   /\ mentions "hyperband" msg /\ mentions "random" msg)
  /\ (seed_accepted (arg_seed args) = false ->
      __init__ args st = (inl (ValueError np_seed_message), init_state args st))
  /\ (seed_accepted (arg_seed args) = true ->
      match _build_graph (init_state args st) with
      | (inr g, st1) =>
          __init__ args st = (inl (ValueError msg), st1)
          /\ (exists l, log st1 = log (init_state args st) ++ l ++ [NewGraph g]
                        /\ forallb is_wiring l = true)
          /\ tuner (self st1) = None
      | (inl e, st1) => __init__ args st = (inl e, st1)
      end).
Proof.
  intros Ht Hnot msg. split; [apply invalid_tuner_message_choices|].
  rewrite init_run. split; intros ->; [reflexivity|].
  destruct (build_graph_cases (init_state args st))
    as [[e Hb]|[(l & st1 & Hb & _)|(g & l & st1 & Hb & Hlog & Hl & Hself & _)]];
    rewrite Hb.
  - now apply bind_inl.
  - now apply bind_inl.
  - split; [|split].
    + erewrite bind_inr by exact Hb. rewrite init_finish_run, Ht.
      now rewrite unknown_tuner_lookup.
    + exists l. auto.
    + rewrite Hself. reflexivity.
Qed.

Lemma unknown_tuner_rejected_witness :
  fst (__init__ (Demo.make_args [Demo.image_input] [OutNode Demo.wired_output]
                   (TunerStr "unknown") None) Demo.wired)
  = inl (ValueError (invalid_tuner_message (ValueStr "unknown"))).
Proof.
  assert (Hnot : ~ In "unknown" ["greedy"; "bayesian"; "hyperband"; "random"]).
  { simpl. intros [H|[H|[H|[H|[]]]]]; discriminate. }
  pose proof (unknown_tuner_rejected
                (Demo.make_args [Demo.image_input] [OutNode Demo.wired_output]
                   (TunerStr "unknown") None) Demo.wired "unknown" eq_refl Hnot)
    as (_ & _ & H).
  specialize (H eq_refl). vm_compute in H. destruct H as [H _].
  vm_compute. exact (f_equal fst H).
Defined.

(** C4, the claim as stated fails: with inputs and heads to assemble, the
    unknown tuner name is reported only after the encoder has been
    instantiated and applied, the head applied and the graph constructed. *)
Lemma unknown_tuner_after_assembly :
  let r := __init__ (Demo.make_args [Demo.image_input]
                       [OutBlock Demo.classification_head]
                       (TunerStr "unknown") None) Demo.start in
  fst r = inl (ValueError (invalid_tuner_message (ValueStr "unknown")))
  /\ List.filter is_block_instantiation (log (snd r))
     = [NewBlock {| block_id := 6; block_class := ImageBlock |}]
  /\ length (log (snd r)) = 4
  /\ log (snd r) <> log Demo.start.
Proof. vm_compute. repeat split; discriminate. Qed.

Lemma seed_accepted_range z :
  seed_accepted (Some z) = true <-> (0 <= z < 2 ^ 32)%Z.
Proof.
  unfold seed_accepted, np_seed_accepted.
  rewrite andb_true_iff, Z.leb_le, Z.ltb_lt. tauto.
Qed.

(** C10 (as amended).  [__init__] stores the seed as given and calls
    [np.random.seed] exactly when the seed is truthy.  With [None] or [0] no
    generator is seeded; with an integer from 1 to 2**32 - 1 both the numpy
    and the tensorflow generator are; with any other integer
    [np.random.seed] refuses the seed, [tf.random.set_seed] is not called
    and construction fails.  The seed [0] is stored and, when construction
    completes, handed to the tuner like any other seed. *)
Theorem seeding_iff_truthy args st :
  let r := __init__ args st in
  seed (self (snd r)) = arg_seed args
  /\ List.filter is_seeding (log (snd r))
     = List.filter is_seeding (log st) ++ seeding (arg_seed args)
  /\ (seeding (arg_seed args) <> [] <-> seed_truthy (arg_seed args) = true)
  /\ seeding (Some 0%Z) = []
  /\ (forall z, (0 < z < 2 ^ 32)%Z ->
                seeding (Some z) = [np_random_seed z; tf_random_set_seed z])
  /\ (forall z, (z < 0 \/ 2 ^ 32 <= z)%Z -> seeding (Some z) = [np_random_seed z])
  /\ (seed_accepted (arg_seed args) = false ->
      fst r = inl (ValueError np_seed_message))
  /\ (fst r = inr tt ->
      exists t, tuner (self (snd r)) = Some t
                /\ tuner_seed t = arg_seed args
                /\ In (NewTuner t) (log (snd r))).
Proof.
  intros r.
  assert (Hstart : List.filter is_seeding (log (init_state args st))
                   = List.filter is_seeding (log st) ++ seeding (arg_seed args)).
  { simpl. now rewrite List.filter_app, filter_seeding_seeding. }
  assert (Hrest : seed (self (snd r)) = arg_seed args
    /\ List.filter is_seeding (log (snd r))
       = List.filter is_seeding (log st) ++ seeding (arg_seed args)
    /\ (seed_accepted (arg_seed args) = false ->
        fst r = inl (ValueError np_seed_message))
    /\ (fst r = inr tt ->
        exists t, tuner (self (snd r)) = Some t
                  /\ tuner_seed t = arg_seed args
                  /\ In (NewTuner t) (log (snd r)))).
  { subst r. rewrite init_run.
    destruct (seed_accepted (arg_seed args)).
    2:{ simpl. repeat split; [exact Hstart|discriminate]. }
    destruct (build_graph_cases (init_state args st))
      as [[e Hb]|[(l & st1 & Hb & Hlog & Hl & Hself)
                 |(g & l & st1 & Hb & Hlog & Hl & Hself & _)]].
    - rewrite (bind_inl _ _ _ _ _ Hb). simpl.
      repeat split; [exact Hstart|discriminate|discriminate].
    - rewrite (bind_inl _ _ _ _ _ Hb). cbn [fst snd].
      split; [now rewrite Hself|]. split; [|split; discriminate].
      rewrite Hlog, List.filter_app, (wiring_is_not_seeding l Hl), app_nil_r.
      exact Hstart.
    - rewrite (bind_inr _ _ _ _ _ Hb).
      assert (Hseed1 : seed (self st1) = arg_seed args) by now rewrite Hself.
      assert (Hlog1 : List.filter is_seeding (log st1)
                      = List.filter is_seeding (log st) ++ seeding (arg_seed args)).
      { rewrite Hlog, !List.filter_app, (wiring_is_not_seeding l Hl). simpl.
        rewrite !app_nil_r. exact Hstart. }
      destruct (init_finish_cases args g st1) as [[e ->]|[cls [[e ->]|(s' & -> & Ht & Hs)]]];
        cbn [fst snd self log with_tuner].
      + repeat split; [exact Hseed1|exact Hlog1|discriminate|discriminate].
      + repeat split; [exact Hseed1| |discriminate|discriminate].
        rewrite List.filter_app. simpl. now rewrite app_nil_r.
      + split; [now rewrite Hs|]. split; [|split; [discriminate|]].
        * rewrite List.filter_app. simpl. now rewrite app_nil_r.
        * intros _. eexists. split; [exact Ht|]. split; [exact Hseed1|].
          apply in_or_app. right. simpl. auto. }
  destruct Hrest as (H1 & H2 & H3 & H4).
  split; [exact H1|]. split; [exact H2|].
  split; [|split; [reflexivity|split; [|split; [|split; [exact H3|exact H4]]]]].
  - unfold seeding, seed_truthy.
    destruct (arg_seed args) as [z|]; [|split; [congruence|discriminate]].
    destruct (z =? 0)%Z; simpl; [split; congruence|].
    destruct (np_seed_accepted z); split; congruence.
  - intros z Hz. unfold seeding.
    assert (Hne : (z =? 0)%Z = false) by (apply Z.eqb_neq; lia).
    assert (Hin : np_seed_accepted z = true) by (apply seed_accepted_range; lia).
    now rewrite Hne, Hin.
  - intros z Hz. unfold seeding.
    assert (Hne : (z =? 0)%Z = false) by (apply Z.eqb_neq; lia).
    assert (Hout : np_seed_accepted z = false).
    { destruct (np_seed_accepted z) eqn:E; [|reflexivity].
      apply seed_accepted_range in E. lia. }
    now rewrite Hne, Hout.
Qed.

Lemma seeding_iff_truthy_witness :
  let r := __init__ (Demo.make_args [Demo.image_input] [OutBlock Demo.classification_head]
                       (TunerStr "greedy") (Some 0%Z)) Demo.start in
  fst r = inr tt
  /\ List.filter is_seeding (log (snd r)) = []
  /\ exists t, tuner (self (snd r)) = Some t /\ tuner_seed t = Some 0%Z.
Proof.
  intros r.
  assert (Hok : fst r = inr tt) by reflexivity.
  destruct (seeding_iff_truthy
              (Demo.make_args [Demo.image_input] [OutBlock Demo.classification_head]
                 (TunerStr "greedy") (Some 0%Z)) Demo.start)
    as (_ & Hlog & _ & _ & _ & _ & _ & Htuner).
  destruct (Htuner Hok) as (t & Ht & Hseed & _).
  split; [exact Hok|]. split; [exact Hlog|]. exists t. split; [exact Ht|exact Hseed].
Defined.

(** C10, the claim as stated fails: the seed [-1] is truthy, yet no generator
    is seeded with it.  [np.random.seed] refuses it, [tf.random.set_seed] is
    never called, and construction stops there. *)
Lemma negative_seed_not_seeded :
  let r := __init__ (Demo.make_args [Demo.image_input] [OutBlock Demo.classification_head]
                       (TunerStr "greedy") (Some (-1)%Z)) Demo.start in
  seed_truthy (Some (-1)%Z) = true
  /\ fst r = inl (ValueError np_seed_message)
  /\ log (snd r) = [np_random_seed (-1)]
  /\ tuner (self (snd r)) = None.
Proof. vm_compute. repeat split. Qed.

(** ** The arity check *)

Lemma shapes_of_arrays values :
  forallb is_array values = true ->
  exists shapes, shapes_of values = inr shapes /\ length shapes = length values.
Proof.
  induction values as [|v values IH]; simpl; intros H; [now exists []|].
  apply andb_prop in H as [Hv Hvs]. destruct v; try discriminate.
  destruct (IH Hvs) as (shapes & -> & Hlen).
  eexists. split; [reflexivity|]. simpl. now rewrite Hlen.
Qed.

Lemma leaf_count_shapes v n :
  leaf_count v = Some n ->
  exists shapes, shapes_of (flatten v) = inr shapes /\ length shapes = n.
Proof.
  unfold leaf_count. destruct (forallb is_array (flatten v)) eqn:H; [|discriminate].
  intros [= <-]. now apply shapes_of_arrays.
Qed.

Lemma reads_only_ret {A} (a : A) : reads_only (ret a).
Proof. now intros st. Qed.

Lemma reads_only_raise {A} e : reads_only (@raise A e).
Proof. now intros st. Qed.

Lemma reads_only_lift {A} (r : exn + A) : reads_only (lift r).
Proof. now destruct r. Qed.

Lemma reads_only_get_self : reads_only get_self.
Proof. now intros st. Qed.

Lemma reads_only_bind {A B} (c : M A) (k : A -> M B) :
  reads_only c -> (forall a, reads_only (k a)) -> reads_only (bind c k).
Proof.
  intros Hc Hk st. unfold bind. specialize (Hc st).
  destruct (c st) as [[e|a] st']; simpl in Hc; subst st'; [reflexivity|apply Hk].
Qed.

Ltac reads_only :=
  repeat first
    [ apply reads_only_ret | apply reads_only_raise | apply reads_only_lift
    | apply reads_only_get_self
    | apply reads_only_bind; [|intros ?]
    | match goal with
      | |- reads_only (if ?b then _ else _) => destruct b
      | |- reads_only (match ?v with _ => _ end) => destruct v
      end ].

(** The check only reads the object. *)
Lemma check_data_format_pure x y validation predict :
  reads_only (_check_data_format x y validation predict).
Proof. unfold _check_data_format. reads_only. Qed.

(** The outcome of the check when both counts exist. *)
Lemma check_data_format_counts x y validation predict st nx ny :
  (is_Dataset x = true -> y = PyNone) ->
  x_count x predict = Some nx ->
  (predict = false -> y_count x y = Some ny) ->
  _check_data_format x y validation predict st =
  (if negb (nx =? length (inputs (self st)))%nat
      || negb predict && negb (ny =? length (outputs (self st)))%nat
   then inl (mismatch_error validation (length (inputs (self st)))
               (length (outputs (self st))) nx ny)
   else inr tt, st).
Proof.
  intros Hnone Hx Hy. unfold _check_data_format, mismatch_error.
  unfold bind at 1, get_self. unfold bind at 1.
  destruct x as [| a | items | d].
  1-3: destruct (leaf_count_shapes _ _ Hx) as (xs & Hxs & <-);
       simpl is_Dataset; cbn [andb]; unfold ret at 1; unfold bind at 1;
       unfold bind at 1; rewrite Hxs; unfold lift at 1, ret at 1;
       destruct predict; cbn [negb];
       [ unfold ret at 1, bind, raise, ret;
         destruct (length xs =? length (inputs (self st)))%nat; reflexivity
       | destruct (leaf_count_shapes _ _ (Hy eq_refl)) as (ys & Hys & <-);
         unfold bind at 1; rewrite Hys; unfold lift at 1, ret at 1, ret at 1;
         unfold bind, raise, ret;
         destruct (length xs =? length (inputs (self st)))%nat;
         destruct (length ys =? length (outputs (self st)))%nat; reflexivity ].
  rewrite (Hnone eq_refl). simpl is_Dataset. simpl is_None. cbn [andb negb].
  unfold ret at 1. unfold bind at 1. simpl in Hx. unfold y_count in Hy.
  destruct predict; cbn [negb].
  - injection Hx as <-. unfold ret at 1, bind, raise, ret.
    destruct (_ =? _)%nat; reflexivity.
  - specialize (Hy eq_refl). unfold dataset_shape.
    destruct (element_spec d) as [|cx [|cy [|? ?]]]; try discriminate.
    injection Hx as <-. injection Hy as <-.
    unfold bind at 1. simpl. unfold bind, raise, ret.
    destruct (length (nest_flatten cx) =? length (inputs (self st)))%nat;
    destruct (length (nest_flatten cy) =? length (outputs (self st)))%nat; reflexivity.
Qed.

(** ** Computations that only add to the trace *)

Lemma keeps_self_ret {A} (a : A) : keeps_self (ret a).
Proof. now intros st. Qed.

Lemma keeps_self_raise {A} e : keeps_self (@raise A e).
Proof. now intros st. Qed.

Lemma keeps_self_lift {A} (r : exn + A) : keeps_self (lift r).
Proof. now destruct r. Qed.

Lemma keeps_self_get_self : keeps_self get_self.
Proof. now intros st. Qed.

Lemma keeps_self_get_log : keeps_self get_log.
Proof. now intros st. Qed.

Lemma keeps_self_emit e : keeps_self (emit e).
Proof. now intros st. Qed.

Lemma keeps_self_reads_only {A} (c : M A) : reads_only c -> keeps_self c.
Proof. intros H st. now rewrite H. Qed.

Lemma keeps_self_bind {A B} (c : M A) (k : A -> M B) :
  keeps_self c -> (forall a, keeps_self (k a)) -> keeps_self (bind c k).
Proof.
  intros Hc Hk st. unfold bind. specialize (Hc st).
  destruct (c st) as [[e|a] st']; simpl in Hc; [exact Hc|].
  destruct (Hk a st') as [H1 H2]. destruct Hc as [H3 H4]. split; congruence.
Qed.

Lemma keeps_self_comprehension {A B} (f : A -> M B) xs :
  (forall x, keeps_self (f x)) -> keeps_self (comprehension f xs).
Proof.
  intros Hf. induction xs as [|x xs IH]; simpl; [apply keeps_self_ret|].
  apply keeps_self_bind; [apply Hf|intros y].
  apply keeps_self_bind; [apply IH|intros ys]. apply keeps_self_ret.
Qed.

Ltac keeps_self :=
  repeat first
    [ apply keeps_self_ret | apply keeps_self_raise | apply keeps_self_lift
    | apply keeps_self_get_self | apply keeps_self_get_log | apply keeps_self_emit
    | apply keeps_self_comprehension; intros ?
    | apply keeps_self_bind; [|intros ?]
    | match goal with
      | |- keeps_self (if ?b then _ else _) => destruct b
      | |- keeps_self (match ?v with _ => _ end) => destruct v
      end ].

Section PipelineProperties.
Context {ext : Collaborators}.

Lemma adapt_loop_keeps_self fit sources : forall hms adapters,
  keeps_self (adapt_loop fit sources hms adapters).
Proof.
  induction sources as [|source sources IH]; intros hms adapters; simpl;
    [apply keeps_self_ret|].
  destruct hms as [|hm hms]; [apply keeps_self_ret|].
  destruct adapters as [|adapter adapters]; [apply keeps_self_ret|].
  apply keeps_self_bind; [unfold adapt_source; keeps_self|intros d].
  apply keeps_self_bind; [apply IH|intros ds]. apply keeps_self_ret.
Qed.

Lemma adapt_keeps_self sources fit hms adapters :
  keeps_self (_adapt sources fit hms adapters).
Proof.
  unfold _adapt. apply keeps_self_bind; [apply adapt_loop_keeps_self|intros adapted].
  keeps_self.
Qed.

Lemma process_xy_keeps_self x y fit validation predict :
  keeps_self (_process_xy x y fit validation predict).
Proof.
  unfold _process_xy.
  apply keeps_self_bind;
    [apply keeps_self_reads_only, check_data_format_pure|intros _].
  apply keeps_self_bind; [apply keeps_self_get_self|intros s].
  apply keeps_self_bind; [unfold slots; keeps_self|intros [x' y']].
  apply keeps_self_bind; [apply adapt_keeps_self|intros dx].
  destruct (negb predict).
  - apply keeps_self_bind; [apply adapt_keeps_self|intros dy]. apply keeps_self_ret.
  - keeps_self.
Qed.

(** ** The steps of [_prepare_data] and [fit] *)

Lemma process_xy_check_fails x y fit validation predict st e :
  _check_data_format x y validation predict st = (inl e, st) ->
  _process_xy x y fit validation predict st = (inl e, st).
Proof. intros H. unfold _process_xy. now apply bind_inl. Qed.

Lemma prepare_data_run x y validation_data validation_split st :
  validation_data_truthy validation_data || validation_split_truthy validation_split
    = true ->
  _prepare_data x y validation_data validation_split st =
  bind (_process_xy x y true false false)
       (prepare_validation validation_data validation_split) st.
Proof.
  intros Hinfo. unfold _prepare_data. unfold bind at 1.
  replace (negb (validation_data_truthy validation_data)
           && negb (validation_split_truthy validation_split)) with false
    by (destruct (validation_data_truthy validation_data),
                 (validation_split_truthy validation_split); simpl in *; congruence).
  unfold ret at 1. unfold bind at 1.
  pose proof (check_data_format_pure x y false false st) as Hpure.
  destruct (_check_data_format x y false false st) as [[e|[]] st'] eqn:Hc;
    simpl in Hpure; subst st'; [|reflexivity].
  symmetry. apply bind_inl. now apply process_xy_check_fails.
Qed.

Lemma fit_run x y batch_size epochs validation_split validation_data st :
  fit x y batch_size epochs validation_split validation_data st =
  bind (_prepare_data x y validation_data validation_split)
       (search_on batch_size epochs) st.
Proof.
  unfold fit, search_on, bind.
  destruct (_prepare_data x y validation_data validation_split st) as [[e|[d v]] st'];
    reflexivity.
Qed.

Lemma prepare_validation_supplied validation_data validation_split dataset st x_val y_val :
  validation_data_truthy validation_data = true ->
  validation_pair validation_data = Some (x_val, y_val) ->
  prepare_validation validation_data validation_split dataset st =
  bind (_process_xy x_val y_val false true false)
       (fun v => ret (dataset, ValDataset v)) (validation_start st).
Proof.
  intros Htruthy Hpair. unfold prepare_validation. rewrite Htruthy.
  unfold bind at 1. unfold bind at 1. unfold set_self at 1.
  fold (validation_start st). unfold bind at 1.
  destruct validation_data as [|d|[|a [|b [|c items]]]]; try discriminate;
    injection Hpair as <- <-; simpl; unfold ret at 1; unfold bind;
    destruct (_process_xy _ _ false true false (validation_start st)) as [[e|v] st'];
    reflexivity.
Qed.



(** ** Validation policy *)

(** C7.  Without validation data and without a split fraction, [fit]
    raises at once: the state is the one [fit] was called in, so no data
    has been checked or converted and no adapter has been called. *)
Theorem fit_requires_validation x y batch_size epochs validation_split
    validation_data st :
  validation_data_truthy validation_data = false ->
  validation_split_truthy validation_split = false ->
  fit x y batch_size epochs validation_split validation_data st =
  (inl (ValueError "Either validation_data or validation_split should be provided."),
   st).
Proof.
  intros Hdata Hsplit. rewrite fit_run. apply bind_inl.
  unfold _prepare_data. apply bind_inl. now rewrite Hdata, Hsplit.
Qed.





(** ** Arity and form of the data *)

Lemma check_mismatch x y validation predict st nx ny :
  (is_Dataset x = true -> y = PyNone) ->
  x_count x predict = Some nx ->
  (predict = false -> y_count x y = Some ny) ->
  nx <> length (inputs (self st))
    \/ (predict = false /\ ny <> length (outputs (self st))) ->
  _check_data_format x y validation predict st =
  (inl (mismatch_error validation (length (inputs (self st)))
          (length (outputs (self st))) nx ny), st).
Proof.
  intros Hnone Hx Hy Hbad.
  rewrite (check_data_format_counts x y validation predict st nx ny Hnone Hx Hy).
  replace (negb (nx =? length (inputs (self st)))%nat
           || negb predict && negb (ny =? length (outputs (self st)))%nat)
    with true; [reflexivity|].
  symmetry. apply orb_true_iff.
  destruct Hbad as [Hbad|[-> Hbad]]; [left|right];
    apply Nat.eqb_neq in Hbad; now rewrite Hbad.
Qed.

Lemma get_x_state d st : snd (_get_x d st) = printed d st.
Proof.
  unfold _get_x, bind, get_self, emit, dataset_shape. fold (printed d st).
  destruct (bool_decide (length (element_spec d) <= 1));
    [now destruct (ds_map lambda_first d)|].
  destruct (existsb is_tuple (element_spec d));
    [now destruct (ds_map lambda_fst d)|].
  destruct ((length (element_spec d) =? 2)%nat && _ && _);
    [now destruct (ds_map lambda_fst d)|reflexivity].
Qed.

Lemma evaluate_fails x y batch_size st e st' :
  _process_xy x y false false false st = (inl e, st') ->
  evaluate x y batch_size st = (inl e, st').
Proof. intros H. unfold evaluate. now apply bind_inl. Qed.

Lemma fit_training_fails x y batch_size epochs validation_split validation_data
    st e st' :
  validation_data_truthy validation_data || validation_split_truthy validation_split
    = true ->
  _process_xy x y true false false st = (inl e, st') ->
  fit x y batch_size epochs validation_split validation_data st = (inl e, st').
Proof.
  intros Hinfo H. rewrite fit_run. apply bind_inl.
  rewrite prepare_data_run by assumption. now apply bind_inl.
Qed.

Lemma fit_validation_fails x y batch_size epochs validation_split validation_data
    st dataset st1 x_val y_val e st2 :
  _process_xy x y true false false st = (inr dataset, st1) ->
  validation_data_truthy validation_data = true ->
  validation_pair validation_data = Some (x_val, y_val) ->
  _process_xy x_val y_val false true false (validation_start st1) = (inl e, st2) ->
  fit x y batch_size epochs validation_split validation_data st = (inl e, st2).
Proof.
  intros Hprocess Htruthy Hpair Hval. rewrite fit_run. apply bind_inl.
  rewrite prepare_data_run by (rewrite Htruthy; reflexivity).
  erewrite bind_inr by exact Hprocess.
  erewrite prepare_validation_supplied by eassumption.
  now apply bind_inl.
Qed.

Lemma predict_dataset_fails d batch_size st d' e st' :
  _get_x d st = (inr d', printed d st) ->
  _process_xy (PyDataset d') PyNone false false true (printed d st) = (inl e, st') ->
  predict (PyDataset d) batch_size st = (inl e, st').
Proof.
  intros Hx Hp. unfold predict. unfold bind at 1, get_self.
  apply bind_inl. erewrite bind_inr by exact Hx. exact Hp.
Qed.

(** C1 (as amended).  When the counts of [x] and [y] exist and one of them
    differs from the number of declared inputs or outputs, the [ValueError]
    naming the side, the expected and the actual count is raised: by fit on
    its training data, by evaluate and by predict on a dataset before any
    adapter is called, and by fit on its validation data before any adapter
    transforms them, in the state the fitting of the training data
    leaves. *)
Theorem arity_checked x y nx ny st :
  let n_in := length (inputs (self st)) in
  let n_out := length (outputs (self st)) in
  (is_Dataset x = true -> y = PyNone) ->
  x_count x false = Some nx ->
  y_count x y = Some ny ->
  nx <> n_in \/ ny <> n_out ->
  (forall batch_size epochs validation_split validation_data,
      validation_data_truthy validation_data
        || validation_split_truthy validation_split = true ->
      fit x y batch_size epochs validation_split validation_data st
      = (inl (mismatch_error false n_in n_out nx ny), st))
  /\ (forall batch_size,
         evaluate x y batch_size st
         = (inl (mismatch_error false n_in n_out nx ny), st))
  /\ (forall d d' st' batch_size,
         _get_x d st = (inr d', st') ->
         length (flat_map nest_flatten (element_spec d')) <> n_in ->
         predict (PyDataset d) batch_size st
         = (inl (ValueError
                   (expect_arrays_message "x" EmptyString n_in
                      (length (flat_map nest_flatten (element_spec d'))))),
            st')
         /\ List.filter is_adapter_call (log st')
            = List.filter is_adapter_call (log st))
  /\ (forall x_train y_train batch_size epochs validation_split validation_data
             st0 dataset,
         _process_xy x_train y_train true false false st0 = (inr dataset, st) ->
         validation_data_truthy validation_data = true ->
         validation_pair validation_data = Some (x, y) ->
         fit x_train y_train batch_size epochs validation_split validation_data st0
         = (inl (mismatch_error true n_in n_out nx ny), validation_start st)).
Proof.
  intros n_in n_out Hnone Hx Hy Hbad.
  assert (Hcheck : forall validation st',
             self st' = self st \/ self st' = set_split_dataset false (self st) ->
             _check_data_format x y validation false st'
             = (inl (mismatch_error validation n_in n_out nx ny), st')).
  { intros validation st' Hself.
    assert (Hin : length (inputs (self st')) = n_in)
      by (destruct Hself as [-> | ->]; reflexivity).
    assert (Hout : length (outputs (self st')) = n_out)
      by (destruct Hself as [-> | ->]; reflexivity).
    rewrite <- Hin, <- Hout. apply check_mismatch; auto.
    rewrite Hin, Hout. destruct Hbad; auto. }
  split; [|split; [|split]].
  - intros. apply fit_training_fails; [assumption|].
    apply process_xy_check_fails, Hcheck. auto.
  - intros. apply evaluate_fails, process_xy_check_fails, Hcheck. auto.
  - intros d d' st' batch_size Hget Hcount.
    pose proof (get_x_state d st) as Hstate. rewrite Hget in Hstate.
    simpl in Hstate. subst st'. split.
    + eapply predict_dataset_fails; [exact Hget|].
      apply process_xy_check_fails.
      rewrite (check_mismatch (PyDataset d') PyNone false true (printed d st)
                 (length (flat_map nest_flatten (element_spec d'))) 0);
        [|reflexivity|reflexivity|discriminate|left; exact Hcount].
      unfold mismatch_error. cbn [printed self].
      apply Nat.eqb_neq in Hcount. fold n_in. now rewrite Hcount.
    + simpl. rewrite List.filter_app. simpl. now rewrite app_nil_r.
  - intros x_train y_train batch_size epochs validation_split validation_data st0
           dataset Hprocess Htruthy Hpair.
    eapply fit_validation_fails; try eassumption.
    apply process_xy_check_fails, Hcheck. auto.
Qed.

(** C8 (as amended).  A dataset given as [x] together with a [y] that is
    not [None] is refused by the check.  For the training data of fit and
    for evaluate the error is raised in the state of the call, before any
    adapter is called; for the validation data of fit it is raised, naming
    the validation data, in the state the fitting of the training data
    leaves, before any adapter transforms the validation data. *)
Theorem dataset_with_y_rejected d y st :
  is_None y = false ->
  (forall validation predict,
      _check_data_format (PyDataset d) y validation predict st
      = (inl (ValueError (expect_y_none_message (in_val_of validation))), st))
  /\ (forall batch_size epochs validation_split validation_data,
         validation_data_truthy validation_data
           || validation_split_truthy validation_split = true ->
         fit (PyDataset d) y batch_size epochs validation_split validation_data st
         = (inl (ValueError "Expect y is None when x is tf.data.Dataset."), st))
  /\ (forall batch_size,
         evaluate (PyDataset d) y batch_size st
         = (inl (ValueError "Expect y is None when x is tf.data.Dataset."), st))
  /\ (forall x_train y_train batch_size epochs validation_split st0 dataset,
         _process_xy x_train y_train true false false st0 = (inr dataset, st) ->
         fit x_train y_train batch_size epochs validation_split
             (ValTuple [PyDataset d; y]) st0
         = (inl (ValueError
                   "Expect y is None when x is tf.data.Dataset in validation_data."),
            validation_start st)).
Proof.
  intros Hy.
  assert (Hcheck : forall validation predict st',
             _check_data_format (PyDataset d) y validation predict st'
             = (inl (ValueError (expect_y_none_message (in_val_of validation))), st')).
  { intros validation predict st'. unfold _check_data_format.
    unfold bind at 1, get_self. apply bind_inl. simpl. now rewrite Hy. }
  split; [intros; apply Hcheck|]. split; [|split].
  - intros. apply fit_training_fails; [assumption|].
    apply process_xy_check_fails, (Hcheck false false).
  - intros. apply evaluate_fails, process_xy_check_fails, (Hcheck false false).
  - intros. eapply fit_validation_fails; try eassumption; [reflexivity|reflexivity|].
    apply process_xy_check_fails, (Hcheck true false).
Qed.

(** ** De-structuring of a dataset given to predict *)

Lemma omap_pointwise {A B} (f g : A -> option B) (l : list A) :
  (forall a, f a = g a) -> omap f l = omap g l.
Proof.
  intros Hfg. induction l as [|a l IH]; [reflexivity|].
  cbn. rewrite Hfg, IH. reflexivity.
Qed.

Lemma map_fst_pair d cx cy :
  element_spec d = [cx; cy] ->
  ds_map lambda_fst d
  = inr {| element_spec := as_components cx; rows := omap x_part (rows d);
           batches := batches d |}.
Proof.
  intros Hspec. unfold ds_map. rewrite Hspec. simpl. f_equal. f_equal.
  apply omap_pointwise. intros r. unfold x_part.
  now destruct r as [|a [|b [|c r]]].
Qed.


End PipelineProperties.

(** ** The claims on concrete objects *)

Lemma fit_requires_validation_witness :
  fit (ext:=Demo.ext) Demo.ten Demo.ten 32 None (Some 0%Q) (ValTuple []) Demo.single_io
  = (inl (ValueError "Either validation_data or validation_split should be provided."),
     Demo.single_io).
Proof.
  exact (fit_requires_validation (ext:=Demo.ext) Demo.ten Demo.ten 32 None
           (Some 0%Q) (ValTuple []) Demo.single_io eq_refl eq_refl).
Defined.

Lemma fitted_run :
  _process_xy (ext:=Demo.ext) Demo.ten Demo.ten true false false Demo.single_io
  = (inr Demo.fitted_dataset, Demo.fitted).
Proof. vm_compute. reflexivity. Qed.




Lemma arity_checked_witness :
  evaluate (ext:=Demo.ext) Demo.two_arrays Demo.ten 32 Demo.single_io
  = (inl (ValueError "Expect x to have 1 arrays, but got 2"), Demo.single_io).
Proof.
  assert (Hnone : is_Dataset Demo.two_arrays = true -> Demo.ten = PyNone)
    by discriminate.
  assert (Hbad : 2 <> length (inputs (self Demo.single_io))
                 \/ 1 <> length (outputs (self Demo.single_io)))
    by (left; vm_compute; discriminate).
  destruct (arity_checked (ext:=Demo.ext) Demo.two_arrays Demo.ten 2 1
              Demo.single_io Hnone eq_refl eq_refl Hbad) as (_ & H & _).
  exact (H 32).
Defined.

(** C1, the claim as stated fails.  A mismatch in the validation data is
    reported only after the adapters have been fitted on the training data;
    and predict on arrays makes no check at all: with two arrays for one
    declared input the first array is transformed and no error is raised. *)
Lemma arity_check_late_or_missing :
  (let r := fit (ext:=Demo.ext) Demo.ten Demo.ten 32 None None
              (ValTuple [PySeq [Demo.three; Demo.three]; Demo.three]) Demo.single_io in
   fst r = inl (ValueError "Expect x in validation_data to have 1 arrays, but got 2")
   /\ List.filter is_adapter_call (log Demo.single_io) = []
   /\ List.filter is_adapter_call (log (snd r))
      = [fit_transform (AdapterOf (HmNode Demo.image_input)) Demo.ten;
         config_from_adapter (HmNode Demo.image_input)
           (AdapterOf (HmNode Demo.image_input));
         fit_transform (AdapterOf (HmBlock Demo.classification_head)) Demo.ten;
         config_from_adapter (HmBlock Demo.classification_head)
           (AdapterOf (HmBlock Demo.classification_head))])
  /\ (let r := predict (ext:=Demo.ext) (PySeq [Demo.ten; Demo.three]) 32
                 Demo.single_io in
      fst r = inr (PyArray {| shape := [1]; data := [7%Z] |})
      /\ List.filter is_adapter_call (log (snd r))
         = [transform (AdapterOf (HmNode Demo.image_input)) Demo.ten]).
Proof. vm_compute. repeat split. Qed.

Lemma dataset_with_y_rejected_witness :
  evaluate (ext:=Demo.ext) (PyDataset Demo.pairs) Demo.ten 32 Demo.single_io
  = (inl (ValueError "Expect y is None when x is tf.data.Dataset."), Demo.single_io).
Proof.
  destruct (dataset_with_y_rejected (ext:=Demo.ext) Demo.pairs Demo.ten Demo.single_io
              eq_refl) as (_ & _ & H & _).
  exact (H 32).
Defined.

(** C8, the claim as stated fails for validation data: the dataset given
    with a [y] is reported after the adapters have been fitted on the
    training data. *)
Lemma dataset_with_y_after_fitting :
  let r := fit (ext:=Demo.ext) Demo.ten Demo.ten 32 None None
             (ValTuple [PyDataset Demo.pairs; Demo.three]) Demo.single_io in
  fst r = inl (ValueError
                 "Expect y is None when x is tf.data.Dataset in validation_data.")
  /\ List.filter is_adapter_call (log Demo.single_io) = []
  /\ List.filter is_adapter_call (log (snd r))
     = [fit_transform (AdapterOf (HmNode Demo.image_input)) Demo.ten;
        config_from_adapter (HmNode Demo.image_input)
          (AdapterOf (HmNode Demo.image_input));
        fit_transform (AdapterOf (HmBlock Demo.classification_head)) Demo.ten;
        config_from_adapter (HmBlock Demo.classification_head)
          (AdapterOf (HmBlock Demo.classification_head))].
Proof. vm_compute. repeat split. Qed.



(** * Further properties of the code *)

(** ** Tuner selection and construction *)

Lemma tuner_lookup_known s c :
  TUNER_CLASSES !! s = Some c <-> In (s, c) known_tuners.
Proof.
  unfold TUNER_CLASSES, known_tuners. split.
  - intros H.
    repeat (rewrite lookup_insert in H; case_decide;
            [subst; injection H as <-; simpl; auto 6|]).
    apply lookup_singleton_Some in H as [<- <-]. simpl. auto 6.
  - simpl. intros [H|[H|[H|[H|[]]]]]; injection H as <- <-; reflexivity.
Qed.

Lemma first_in_block_head o st h st' :
  first_in_block o st = (inr h, st') -> head_of o h.
Proof.
  destruct o as [n|b]; simpl; [|discriminate].
  destruct (in_blocks n !! 0) as [b|] eqn:E; [|discriminate].
  intros [= <- _]. now exists n.
Qed.

Lemma heads_of_outputs outs st heads :
  fst (comprehension first_in_block outs st) = inr heads ->
  Forall2 head_of outs heads.
Proof.
  revert heads. induction outs as [|o outs IH]; intros heads; simpl.
  - intros [= <-]. constructor.
  - unfold bind at 1. pose proof (first_in_block_pure o st) as Hpure.
    destruct (first_in_block o st) as [[e|h] st1] eqn:Ho; [discriminate|].
    simpl in Hpure. subst st1. unfold bind at 1.
    destruct (comprehension first_in_block outs st) as [[e|hs] st2] eqn:Hc;
      [discriminate|].
    simpl. intros [= <-]. constructor.
    + eapply first_in_block_head. exact Ho.
    + apply IH. reflexivity.
Qed.

(** The shape of a completed construction. *)
Lemma init_success args st st' :
  __init__ args st = (inr tt, st') ->
  exists g l st1 cls heads,
    _build_graph (init_state args st) = (inr g, st1)
    /\ log st1 = log (init_state args st) ++ l ++ [NewGraph g]
    /\ forallb is_wiring l = true
    /\ self st1 = set_outputs (map OutNode (Graph.outputs g)) (self (init_state args st))
    /\ match arg_tuner args with
       | TunerStr s => TUNER_CLASSES !! s = Some cls
       | TunerType c => cls = c
       end
    /\ Forall2 head_of (outputs (self st1)) heads
    /\ st' = {| self := set_output_adapters (map (fun b => AdapterOf (HmBlock b)) heads)
                          (set_input_adapters
                             (map (fun n => AdapterOf (HmNode n)) (inputs (self st1)))
                             (set_heads heads
                                (self (with_tuner (tuner_for args g cls (self st1)) st1))));
                next_id := next_id st1;
                log := log st1 ++ [NewTuner (tuner_for args g cls (self st1))] |}.
Proof.
  rewrite init_run. destruct (seed_accepted (arg_seed args)); [|discriminate].
  destruct (build_graph_cases (init_state args st))
    as [[e Hb]|[(l & st1 & Hb & _)|(g & l & st1 & Hb & Hlog & Hl & Hself & _)]].
  - rewrite (bind_inl _ _ _ _ _ Hb). discriminate.
  - rewrite (bind_inl _ _ _ _ _ Hb). discriminate.
  - rewrite (bind_inr _ _ _ _ _ Hb), init_finish_run. intros Hfinish.
    assert (Hinstall : forall cls,
      install_tuner args g cls st1 = (inr tt, st') ->
      exists heads,
        Forall2 head_of (outputs (self st1)) heads
        /\ st' = {| self := set_output_adapters (map (fun b => AdapterOf (HmBlock b)) heads)
                     (set_input_adapters
                        (map (fun n => AdapterOf (HmNode n)) (inputs (self st1)))
                        (set_heads heads
                           (self (with_tuner (tuner_for args g cls (self st1)) st1))));
                    next_id := next_id st1;
                    log := log st1 ++ [NewTuner (tuner_for args g cls (self st1))] |}).
    { intros cls Hrun. pose proof (install_tuner_run args g cls st1) as Hcases.
      cbv zeta in Hcases.
      destruct (fst (comprehension first_in_block (outputs (self st1))
                       (with_tuner (tuner_for args g cls (self st1)) st1)))
        as [e|heads] eqn:Hheads.
      - rewrite Hcases in Hrun. discriminate.
      - exists heads. split; [eapply heads_of_outputs; exact Hheads|].
        rewrite Hcases in Hrun. now injection Hrun as <-. }
    destruct (arg_tuner args) as [s|c] eqn:Ht.
    + destruct (TUNER_CLASSES !! s) as [cls|] eqn:Hcls; [|discriminate].
      destruct (Hinstall cls Hfinish) as (heads & Hheads & ->).
      exists g, l, st1, cls, heads. repeat split; assumption.
    + destruct (Hinstall c Hfinish) as (heads & Hheads & ->).
      exists g, l, st1, c, heads. repeat split; assumption.
Qed.

(** X1.  [get_tuner_class] accepts exactly the four names of
    [TUNER_CLASSES], each with its class; anything else, a value that is
    not a string included, is refused with the [ValueError] that quotes the
    argument as [str.format] prints it. *)
Theorem get_tuner_class_accepts t c :
  (get_tuner_class t = inr c <-> exists s, t = ValueStr s /\ In (s, c) known_tuners)
  /\ ((forall c', get_tuner_class t <> inr c') ->
      get_tuner_class t = inl (ValueError (invalid_tuner_message t)))
  /\ (forall formatted,
        exists rest,
          get_tuner_class (ValueOther formatted)
          = inl (ValueError ("The value " +:+ formatted +:+ rest))).
Proof.
  split; [split|split].
  - destruct t as [s|k]; simpl; [|discriminate].
    destruct (TUNER_CLASSES !! s) as [c'|] eqn:E; [|discriminate].
    intros [= <-]. exists s. split; [reflexivity|]. now apply tuner_lookup_known.
  - intros (s & -> & Hin). simpl. apply tuner_lookup_known in Hin. now rewrite Hin.
  - destruct t as [s|k]; simpl; [|reflexivity].
    destruct (TUNER_CLASSES !! s) as [c'|]; [|reflexivity].
    intros H. now destruct (H c').
  - intros formatted. eexists. reflexivity.
Qed.

(** X3.  A completed construction stores a tuner of the class asked for (the
    class of the table for a name, the class itself when a class is given,
    whatever the class) whose hyper-model is the graph just built: the graph
    of the declared inputs and of the nodes now in [self.outputs].  The
    creation of the tuner is the last event of the trace: no seeding and no
    construction of a block or graph follows it. *)
Theorem constructed_tuner args st st' :
  __init__ args st = (inr tt, st') ->
  exists t,
    tuner (self st') = Some t
    /\ match arg_tuner args with
       | TunerStr s => In (s, tuner_class t) known_tuners
       | TunerType c => tuner_class t = c
       end
    /\ Graph.inputs (hypermodel t) = nest_flatten (arg_inputs args)
    /\ inputs (self st') = nest_flatten (arg_inputs args)
    /\ map OutNode (Graph.outputs (hypermodel t)) = outputs (self st')
    /\ last (log st') = Some (NewTuner t).
Proof.
  intros Hinit.
  destruct (init_success args st st' Hinit)
    as (g & l & st1 & cls & heads & Hb & Hlog & Hl & Hself & Hcls & Hheads & ->).
  exists (tuner_for args g cls (self st1)). cbn [self log].
  split; [reflexivity|]. split.
  { destruct (arg_tuner args) as [s|c]; [now apply tuner_lookup_known|exact Hcls]. }
  destruct (build_graph_cases (init_state args st))
    as [[e Hb']|[(l' & st1' & Hb' & _)|(g' & l' & st1' & Hb' & _ & _ & _ & Hin)]];
    [congruence|congruence|].
  rewrite Hb in Hb'. injection Hb' as <- <-.
  split; [exact Hin|]. split; [simpl; now rewrite Hself|].
  split; [simpl; now rewrite Hself|]. apply last_snoc.
Qed.

Lemma single_io_constructed :
  __init__ (Demo.make_args [Demo.image_input] [OutBlock Demo.classification_head]
              (TunerStr "greedy") None) Demo.start
  = (inr tt, Demo.single_io).
Proof. vm_compute. reflexivity. Qed.

Lemma constructed_tuner_witness :
  exists t, tuner (self Demo.single_io) = Some t /\ tuner_class t = Greedy.
Proof.
  destruct (constructed_tuner _ _ _ single_io_constructed) as (t & Ht & Hcls & _).
  exists t. split; [exact Ht|].
  cbn [arg_tuner Demo.make_args] in Hcls.
  apply tuner_lookup_known in Hcls.
  change (TUNER_CLASSES !! "greedy") with (Some Greedy) in Hcls.
  now injection Hcls.
Defined.

(** X4.  A completed construction leaves [self.outputs] holding nodes only,
    one head per output (the first block producing the output node), one
    input adapter per input and one output adapter per head, in order, and
    [_split_dataset] false. *)
Theorem constructed_adapters args st st' :
  __init__ args st = (inr tt, st') ->
  forallb isinstance_Node (outputs (self st')) = true
  /\ Forall2 head_of (outputs (self st')) (_heads (self st'))
  /\ _input_adapters (self st') = map (fun n => AdapterOf (HmNode n)) (inputs (self st'))
  /\ _output_adapters (self st') = map (fun b => AdapterOf (HmBlock b)) (_heads (self st'))
  /\ length (_input_adapters (self st')) = length (inputs (self st'))
  /\ length (_output_adapters (self st')) = length (outputs (self st'))
  /\ _split_dataset (self st') = false.
Proof.
  intros Hinit.
  destruct (init_success args st st' Hinit)
    as (g & l & st1 & cls & heads & Hb & Hlog & Hl & Hself & Hcls & Hheads & ->).
  cbn [self with_tuner outputs _heads _input_adapters _output_adapters inputs
       _split_dataset set_output_adapters set_input_adapters set_heads
       set_split_dataset set_tuner].
  split.
  { rewrite Hself. simpl. clear. induction (Graph.outputs g); simpl; auto. }
  split; [exact Hheads|]. split; [reflexivity|]. split; [reflexivity|].
  split; [now rewrite length_map|]. split; [|reflexivity].
  rewrite length_map. symmetry. eapply Forall2_length. exact Hheads.
Qed.

Lemma constructed_adapters_witness :
  _heads (self Demo.single_io) = [Demo.classification_head]
  /\ length (_input_adapters (self Demo.single_io)) = 1
  /\ length (_output_adapters (self Demo.single_io)) = 1.
Proof.
  destruct (constructed_adapters _ _ _ single_io_constructed)
    as (_ & _ & _ & _ & Hin & Hout & _).
  split; [reflexivity|]. split; [rewrite Hin|rewrite Hout]; reflexivity.
Defined.

(** ** Traces *)

Lemma extended_nil st : extended st [] = st.
Proof. unfold extended. rewrite app_nil_r. apply state_eta. Qed.

Lemma extended_app st evs evs' :
  extended (extended st evs) evs' = extended st (evs ++ evs').
Proof. unfold extended. simpl. now rewrite app_assoc. Qed.

Lemma emits_only_ret P {A} (a : A) : emits_only P (ret a).
Proof. intros st. exists []. now rewrite extended_nil. Qed.

Lemma emits_only_raise P {A} e : emits_only P (@raise A e).
Proof. intros st. exists []. now rewrite extended_nil. Qed.

Lemma emits_only_lift P {A} (r : exn + A) : emits_only P (lift r).
Proof. destruct r; [apply emits_only_raise|apply emits_only_ret]. Qed.

Lemma emits_only_reads_only P {A} (c : M A) : reads_only c -> emits_only P c.
Proof. intros H st. exists []. now rewrite H, extended_nil. Qed.

Lemma emits_only_emit (P : Event -> bool) e : P e = true -> emits_only P (emit e).
Proof. intros H st. exists [e]. simpl. now rewrite H. Qed.

Lemma emits_only_bind P {A B} (c : M A) (k : A -> M B) :
  emits_only P c -> (forall a, emits_only P (k a)) -> emits_only P (bind c k).
Proof.
  intros Hc Hk st. unfold bind. destruct (Hc st) as (evs & Hst & Hevs).
  destruct (c st) as [[e|a] st1]; simpl in Hst; subst st1; [now exists evs|].
  destruct (Hk a (extended st evs)) as (evs' & Hst' & Hevs').
  exists (evs ++ evs'). rewrite Hst', extended_app, forallb_app, Hevs, Hevs'. auto.
Qed.

Lemma emits_only_comprehension P {A B} (f : A -> M B) xs :
  (forall x, emits_only P (f x)) -> emits_only P (comprehension f xs).
Proof.
  intros Hf. induction xs as [|x xs IH]; simpl; [apply emits_only_ret|].
  apply emits_only_bind; [apply Hf|intros y].
  apply emits_only_bind; [apply IH|intros ys]. apply emits_only_ret.
Qed.

Lemma get_tuner_reads_only : reads_only get_tuner.
Proof. unfold get_tuner. reads_only. Qed.

Lemma get_log_reads_only : reads_only get_log.
Proof. now intros st. Qed.

Ltac emits_only :=
  repeat first
    [ apply emits_only_ret | apply emits_only_raise | apply emits_only_lift
    | apply emits_only_reads_only, reads_only_get_self
    | apply emits_only_reads_only, get_log_reads_only
    | apply emits_only_reads_only, get_tuner_reads_only
    | apply emits_only_reads_only, check_data_format_pure
    | apply emits_only_emit; reflexivity
    | apply emits_only_comprehension; intros ?
    | apply emits_only_bind; [|intros ?]
    | match goal with
      | |- emits_only _ (if ?b then _ else _) => destruct b
      | |- emits_only _ (match ?v with _ => _ end) => destruct v
      | |- emits_only _ (let '(_, _) := ?v in _) => destruct v
      end ].

Section FurtherPipelineProperties.
Context {ext : Collaborators}.

Lemma adapt_source_run fit source hm adapter st :
  exists d, adapt_source fit source hm adapter st
            = (inr d, extended st (adapt_events fit [source] [hm] [adapter])).
Proof.
  unfold adapt_source, bind, get_log, emit, ret, extended. simpl.
  destruct fit; simpl; eexists; rewrite <- ?app_assoc; reflexivity.
Qed.

Lemma adapt_loop_run fit sources : forall hms adapters st,
  exists dss,
    adapt_loop fit sources hms adapters st
    = (inr dss, extended st (adapt_events fit sources hms adapters))
    /\ length dss = length sources `min` (length hms `min` length adapters).
Proof.
  induction sources as [|source sources IH]; intros hms adapters st.
  - exists []. simpl. now rewrite extended_nil.
  - destruct hms as [|hm hms];
      [exists []; simpl; now rewrite extended_nil|].
    destruct adapters as [|adapter adapters];
      [exists []; simpl; rewrite extended_nil; split; [reflexivity|lia]|].
    destruct (adapt_source_run fit source hm adapter st) as (d & Hd).
    destruct (IH hms adapters (extended st (adapt_events fit [source] [hm] [adapter])))
      as (dss & Hdss & Hlen).
    exists (d :: dss). split; [|simpl; lia].
    cbn [adapt_loop]. rewrite (bind_inr _ _ _ _ _ Hd), (bind_inr _ _ _ _ _ Hdss).
    unfold ret. rewrite extended_app. f_equal. f_equal. simpl.
    now rewrite app_nil_r.
Qed.

Lemma adapt_run_some sources fit hms adapters st :
  0 < adapted_count (flatten sources) hms adapters ->
  exists d, _adapt sources fit hms adapters st
            = (inr d, extended st (adapt_events fit (flatten sources) hms adapters)).
Proof.
  intros Hcount. unfold _adapt.
  destruct (adapt_loop_run fit (flatten sources) hms adapters st) as (dss & Hdss & Hlen).
  rewrite (bind_inr _ _ _ _ _ Hdss). fold (adapted_count (flatten sources) hms adapters) in Hlen.
  destruct dss as [|d [|d' dss]]; [simpl in Hlen; lia| |]; eexists; reflexivity.
Qed.

Lemma adapt_events_none fit sources : forall hms adapters,
  adapted_count sources hms adapters = 0 -> adapt_events fit sources hms adapters = [].
Proof.
  unfold adapted_count.
  destruct sources as [|source sources]; intros [|hm hms] [|adapter adapters];
    simpl; intros H; try reflexivity; lia.
Qed.

Lemma adapt_run_none sources fit hms adapters st :
  adapted_count (flatten sources) hms adapters = 0 ->
  _adapt sources fit hms adapters st = (inl nothing_to_zip, st).
Proof.
  intros Hcount. unfold _adapt.
  destruct (adapt_loop_run fit (flatten sources) hms adapters st) as (dss & Hdss & Hlen).
  rewrite (bind_inr _ _ _ _ _ Hdss). fold (adapted_count (flatten sources) hms adapters) in Hlen.
  rewrite (adapt_events_none _ _ _ _ Hcount), extended_nil.
  destruct dss as [|d dss]; [reflexivity|simpl in Hlen; lia].
Qed.

Lemma adapt_events_count fit sources : forall hms adapters,
  length (adapt_events fit sources hms adapters)
  = (if fit then 2 else 1)
    * (length sources `min` (length hms `min` length adapters)).
Proof.
  induction sources as [|source sources IH]; intros hms adapters; [simpl; lia|].
  destruct hms as [|hm hms]; [simpl; lia|].
  destruct adapters as [|adapter adapters]; [simpl; lia|].
  cbn [adapt_events]. rewrite length_app, IH. destruct fit; simpl; lia.
Qed.

Lemma adapt_events_not_fitting sources : forall hms adapters,
  forallb (fun e => negb (is_fitting e)) (adapt_events false sources hms adapters) = true.
Proof.
  induction sources as [|source sources IH]; intros hms adapters; [reflexivity|].
  destruct hms as [|hm hms]; [reflexivity|].
  destruct adapters as [|adapter adapters]; [reflexivity|].
  simpl. apply IH.
Qed.

(** ** Adaptation *)

(** X6.  [_adapt] raises nothing of its own and never assigns an attribute.
    It calls the adapters slot by slot, in order, for as many slots as there
    are sources, hyper-models and adapters: sources beyond the adapters, or
    adapters beyond the sources, are silently left out.  In fit mode each
    slot is [fit_transform] followed by [config_from_adapter] on its
    hyper-model; otherwise it is [transform] alone.  With at least one slot
    it returns a dataset; with none it has called no adapter and fails in
    [Dataset.zip], which has nothing to zip.  (The adapters are taken to
    return.) *)
Theorem adapt_calls sources fit hms adapters st :
  let count := adapted_count (flatten sources) hms adapters in
  (0 < count ->
   exists d, _adapt sources fit hms adapters st
             = (inr d, extended st (adapt_events fit (flatten sources) hms adapters)))
  /\ (count = 0 -> _adapt sources fit hms adapters st = (inl nothing_to_zip, st))
  /\ length (adapt_events fit (flatten sources) hms adapters)
     = (if fit then 2 else 1) * count
  /\ (fit = false ->
      forallb (fun e => negb (is_fitting e))
        (adapt_events fit (flatten sources) hms adapters) = true).
Proof.
  intros count. split; [apply adapt_run_some|]. split; [apply adapt_run_none|].
  split; [apply adapt_events_count|].
  intros ->. apply adapt_events_not_fitting.
Qed.

(** ** Acceptance of the data *)

(** X7.  When the counts of [x] and [y] exist, the check passes exactly when
    the count of [x] is the number of inputs and, outside predict mode, the
    count of [y] is the number of outputs; in predict mode neither [y] nor
    the number of outputs matters.  Passing or not, the check changes
    nothing. *)
Theorem check_passes_iff x y validation predict st nx ny :
  (is_Dataset x = true -> y = PyNone) ->
  x_count x predict = Some nx ->
  (predict = false -> y_count x y = Some ny) ->
  (_check_data_format x y validation predict st = (inr tt, st)
   <-> nx = length (inputs (self st))
       /\ (predict = true \/ ny = length (outputs (self st))))
  /\ snd (_check_data_format x y validation predict st) = st.
Proof.
  intros Hnone Hx Hy. split; [|apply check_data_format_pure].
  rewrite (check_data_format_counts x y validation predict st nx ny Hnone Hx Hy).
  destruct (Nat.eqb_spec nx (length (inputs (self st)))) as [Hin|Hin];
    destruct predict; simpl;
    try destruct (Nat.eqb_spec ny (length (outputs (self st)))) as [Hout|Hout];
    simpl; split; try discriminate; try tauto; intros [? [?|?]]; congruence.
Qed.

Lemma check_passes_iff_witness :
  _check_data_format Demo.ten PyNone false true Demo.single_io
  = (inr tt, Demo.single_io).
Proof.
  assert (Hnone : is_Dataset Demo.ten = true -> PyNone = PyNone) by reflexivity.
  assert (Hy : true = false -> y_count Demo.ten PyNone = Some 0) by discriminate.
  destruct (check_passes_iff Demo.ten PyNone false true Demo.single_io 1 0
              Hnone eq_refl Hy) as [[_ H] _].
  apply H. split; [reflexivity|left; reflexivity].
Defined.

Lemma check_passes x y validation predict st :
  is_Dataset x = false ->
  leaf_count x = Some (length (inputs (self st))) ->
  (predict = false -> leaf_count y = Some (length (outputs (self st)))) ->
  _check_data_format x y validation predict st = (inr tt, st).
Proof.
  intros Hx Hcx Hcy.
  rewrite (check_data_format_counts x y validation predict st
             (length (inputs (self st))) (length (outputs (self st)))).
  - rewrite !Nat.eqb_refl. now destruct predict.
  - rewrite Hx. discriminate.
  - destruct x; try discriminate; exact Hcx.
  - destruct x; try discriminate; exact Hcy.
Qed.

Lemma adapt_xy_run x y fit predict st :
  0 < adapted_count (flatten x) (map HmNode (inputs (self st)))
        (_input_adapters (self st)) ->
  (predict = false ->
   0 < adapted_count (flatten y) (map HmBlock (_heads (self st)))
         (_output_adapters (self st))) ->
  exists ds,
    adapt_xy x y fit predict (self st) st
    = (inr ds,
       extended st
         (adapt_events fit (flatten x) (map HmNode (inputs (self st)))
            (_input_adapters (self st))
          ++ (if predict then []
              else adapt_events fit (flatten y) (map HmBlock (_heads (self st)))
                     (_output_adapters (self st)))))
    /\ (predict = false -> length (element_spec ds) = 2).
Proof.
  intros Hcx Hcy. unfold adapt_xy.
  destruct (adapt_run_some x fit _ _ st Hcx) as (dx & Hdx).
  rewrite (bind_inr _ _ _ _ _ Hdx). destruct predict; cbn [negb].
  - rewrite app_nil_r.
    destruct (length (inputs (self st)) =? 1)%nat;
      [exists dx|eexists]; (split; [reflexivity|discriminate]).
  - destruct (adapt_run_some y fit (map HmBlock (_heads (self st)))
                (_output_adapters (self st)) (extended st
                   (adapt_events fit (flatten x) (map HmNode (inputs (self st)))
                      (_input_adapters (self st)))) (Hcy eq_refl)) as (dy & Hdy).
    cbn [extended self] in Hdy. rewrite (bind_inr _ _ _ _ _ Hdy).
    exists (zipped dx [dy]). split; [|reflexivity].
    simpl. unfold ret. now rewrite extended_app.
Qed.

Lemma adapt_xy_no_x x y fit predict st :
  adapted_count (flatten x) (map HmNode (inputs (self st)))
    (_input_adapters (self st)) = 0 ->
  adapt_xy x y fit predict (self st) st = (inl nothing_to_zip, st).
Proof. intros Hcx. unfold adapt_xy. apply bind_inl. now apply adapt_run_none. Qed.

Lemma adapt_xy_no_y x y fit st :
  0 < adapted_count (flatten x) (map HmNode (inputs (self st)))
        (_input_adapters (self st)) ->
  adapted_count (flatten y) (map HmBlock (_heads (self st)))
    (_output_adapters (self st)) = 0 ->
  adapt_xy x y fit false (self st) st
  = (inl nothing_to_zip,
     extended st (adapt_events fit (flatten x) (map HmNode (inputs (self st)))
                    (_input_adapters (self st)))).
Proof.
  intros Hcx Hcy. unfold adapt_xy.
  destruct (adapt_run_some x fit _ _ st Hcx) as (dx & Hdx).
  rewrite (bind_inr _ _ _ _ _ Hdx). cbn [negb]. apply bind_inl.
  now apply adapt_run_none.
Qed.

Lemma process_arrays_tail x y fit validation predict st :
  is_Dataset x = false ->
  _check_data_format x y validation predict st = (inr tt, st) ->
  _process_xy x y fit validation predict st = adapt_xy x y fit predict (self st) st.
Proof.
  intros Hx Hcheck. unfold _process_xy. rewrite (bind_inr _ _ _ _ _ Hcheck).
  unfold bind at 1, get_self.
  destruct x as [|a|items|d]; try discriminate; reflexivity.
Qed.

(** X8.  On arrays the arity check is the only thing of its own that
    [_process_xy] can fail on: when the leaves of [x] are as many arrays as
    there are inputs and (outside predict mode) those of [y] as many as
    there are outputs, it calls the input adapters on the leaves of [x] and
    then, outside predict mode, the head adapters on the leaves of [y], and
    the dataset returned outside predict mode has two top-level components,
    the x part and the y part.  Only an object on which a pass of [_adapt]
    has no slot at all fails, in [Dataset.zip]. *)
Theorem process_arrays_succeeds x y fit validation predict st :
  is_Dataset x = false ->
  leaf_count x = Some (length (inputs (self st))) ->
  (predict = false -> leaf_count y = Some (length (outputs (self st)))) ->
  let ex := adapt_events fit (flatten x) (map HmNode (inputs (self st)))
              (_input_adapters (self st)) in
  let cx := adapted_count (flatten x) (map HmNode (inputs (self st)))
              (_input_adapters (self st)) in
  let cy := adapted_count (flatten y) (map HmBlock (_heads (self st)))
              (_output_adapters (self st)) in
  (0 < cx -> (predict = false -> 0 < cy) ->
   exists ds,
     _process_xy x y fit validation predict st
     = (inr ds,
        extended st
          (ex ++ (if predict then []
                  else adapt_events fit (flatten y) (map HmBlock (_heads (self st)))
                         (_output_adapters (self st)))))
     /\ (predict = false -> length (element_spec ds) = 2))
  /\ (cx = 0 ->
      _process_xy x y fit validation predict st = (inl nothing_to_zip, st))
  /\ (0 < cx -> predict = false -> cy = 0 ->
      _process_xy x y fit validation predict st
      = (inl nothing_to_zip, extended st ex)).
Proof.
  intros Hx Hcx Hcy ex cx cy.
  pose proof (check_passes x y validation predict st Hx Hcx Hcy) as Hcheck.
  rewrite (process_arrays_tail x y fit validation predict st Hx Hcheck).
  split; [|split].
  - apply adapt_xy_run.
  - apply adapt_xy_no_x.
  - intros Hpos -> Hzero. now apply adapt_xy_no_y.
Qed.

(** ** Refusals that are not arity errors *)

Lemma check_without_y x validation st :
  is_Dataset x = false ->
  forallb is_array (flatten x) = true ->
  _check_data_format x PyNone validation false st
  = (inl (AttributeError "'NoneType' object has no attribute 'shape'"), st).
Proof.
  intros Hx Harr. destruct (shapes_of_arrays _ Harr) as (xs & Hxs & _).
  unfold _check_data_format. unfold bind at 1, get_self.
  rewrite Hx. cbn [andb]. unfold bind at 1, ret at 1. apply bind_inl.
  destruct x as [|a|items|d]; try discriminate;
    unfold bind at 1; rewrite Hxs; reflexivity.
Qed.

(** X9.  With arrays for [x] and no [y] (the default of evaluate), outside
    predict mode the check fails on [None.shape] before it compares any
    count: evaluate, and fit on its training data, raise an [AttributeError]
    whatever the number of arrays in [x], and no adapter is called. *)
Theorem arrays_without_y x st :
  is_Dataset x = false ->
  forallb is_array (flatten x) = true ->
  (forall batch_size,
      evaluate x PyNone batch_size st
      = (inl (AttributeError "'NoneType' object has no attribute 'shape'"), st))
  /\ (forall batch_size epochs validation_split validation_data,
         validation_data_truthy validation_data
           || validation_split_truthy validation_split = true ->
         fit x PyNone batch_size epochs validation_split validation_data st
         = (inl (AttributeError "'NoneType' object has no attribute 'shape'"), st)).
Proof.
  intros Hx Harr. split.
  - intros. apply evaluate_fails, process_xy_check_fails.
    now apply check_without_y.
  - intros. apply fit_training_fails; [assumption|].
    apply process_xy_check_fails. now apply check_without_y.
Qed.

Lemma check_wide_dataset d validation st :
  2 < length (element_spec d) ->
  _check_data_format (PyDataset d) PyNone validation false st
  = (inl (ValueError "too many values to unpack (expected 2)"), st).
Proof.
  intros Hlen. unfold _check_data_format. unfold bind at 1, get_self.
  cbn [is_Dataset is_None negb andb]. unfold bind at 1, ret at 1. apply bind_inl.
  cbn [negb]. apply bind_inl. unfold dataset_shape.
  destruct (element_spec d) as [|a [|b [|c rest]]]; simpl in Hlen; try lia.
  reflexivity.
Qed.

(** X10.  Outside predict mode a dataset must be made of pairs: one whose
    elements have more than two top-level components, such as
    [(x, y, weights)], is refused by evaluate and by fit with the
    [ValueError] of the failed unpacking into [(x_shapes, y_shapes)], before
    any adapter is called. *)
Theorem wide_dataset_refused d st :
  2 < length (element_spec d) ->
  (forall batch_size,
      evaluate (PyDataset d) PyNone batch_size st
      = (inl (ValueError "too many values to unpack (expected 2)"), st))
  /\ (forall batch_size epochs validation_split validation_data,
         validation_data_truthy validation_data
           || validation_split_truthy validation_split = true ->
         fit (PyDataset d) PyNone batch_size epochs validation_split validation_data st
         = (inl (ValueError "too many values to unpack (expected 2)"), st)).
Proof.
  intros Hlen. split.
  - intros. apply evaluate_fails, process_xy_check_fails.
    now apply check_wide_dataset.
  - intros. apply fit_training_fails; [assumption|].
    apply process_xy_check_fails. now apply check_wide_dataset.
Qed.

(** ** Validation data that is not a pair *)


(** X12.  A [validation_data] tuple is unpacked as [(x_val, y_val)]: with one
    item, or with more than two, [fit] raises the [ValueError] of the failed
    unpacking, after the adapters have been fitted on the training data and
    after [_split_dataset] has been set to false. *)
Theorem validation_tuple_unpacked x y batch_size epochs validation_split items
    st dataset st1 :
  _process_xy x y true false false st = (inr dataset, st1) ->
  (length items = 1 ->
   fit x y batch_size epochs validation_split (ValTuple items) st
   = (inl (ValueError "not enough values to unpack (expected 2, got 1)"),
      validation_start st1))
  /\ (2 < length items ->
      fit x y batch_size epochs validation_split (ValTuple items) st
      = (inl (ValueError "too many values to unpack (expected 2)"),
         validation_start st1)).
Proof.
  intros Hprocess.
  assert (Hfail : forall e,
    items <> [] -> unpack2 items = inl e ->
    fit x y batch_size epochs validation_split (ValTuple items) st
    = (inl e, validation_start st1)).
  { intros e Hne Hunpack. rewrite fit_run. apply bind_inl.
    assert (Htruthy : validation_data_truthy (ValTuple items) = true)
      by (destruct items; [congruence|reflexivity]).
    rewrite prepare_data_run by (rewrite Htruthy; reflexivity).
    rewrite (bind_inr _ _ _ _ _ Hprocess). unfold prepare_validation.
    rewrite Htruthy. apply bind_inl. unfold bind at 1, set_self at 1.
    fold (validation_start st1). apply bind_inl. now rewrite Hunpack. }
  split; intros Hlen.
  - destruct items as [|a [|b rest]]; try discriminate. now apply Hfail.
  - destruct items as [|a [|b [|c rest]]]; simpl in Hlen; try lia. now apply Hfail.
Qed.

(** ** Prediction *)





(** ** What the read-only methods never do *)

Lemma adapt_loop_transforms_only sources : forall hms adapters,
  emits_only (fun e => negb (is_fitting e)) (adapt_loop false sources hms adapters).
Proof.
  induction sources as [|source sources IH]; intros hms adapters;
    [apply emits_only_ret|].
  destruct hms as [|hm hms]; [apply emits_only_ret|].
  destruct adapters as [|adapter adapters]; [apply emits_only_ret|].
  cbn [adapt_loop]. apply emits_only_bind; [unfold adapt_source; emits_only|intros d].
  apply emits_only_bind; [apply IH|intros ds]. apply emits_only_ret.
Qed.

Lemma adapt_transforms_only sources hms adapters :
  emits_only (fun e => negb (is_fitting e)) (_adapt sources false hms adapters).
Proof.
  unfold _adapt. apply emits_only_bind; [apply adapt_loop_transforms_only|intros ds].
  emits_only.
Qed.

Lemma process_xy_transforms_only x y validation predict :
  emits_only (fun e => negb (is_fitting e)) (_process_xy x y false validation predict).
Proof.
  unfold _process_xy.
  apply emits_only_bind;
    [apply emits_only_reads_only, check_data_format_pure|intros _].
  apply emits_only_bind; [apply emits_only_reads_only, reads_only_get_self|intros s].
  apply emits_only_bind; [unfold slots; emits_only|intros [x' y']].
  apply emits_only_bind; [apply adapt_transforms_only|intros dx].
  destruct (negb predict).
  - apply emits_only_bind; [apply adapt_transforms_only|intros dy]. apply emits_only_ret.
  - emits_only.
Qed.

(** X14.  [predict], [evaluate] and [export_model] are read-only on every
    input and whether they succeed or fail: they assign no attribute of the
    object, and among the calls they make there is no [fit_transform], no
    [config_from_adapter] and no [tuner.search]. *)
Theorem inference_fits_nothing :
  (forall x batch_size,
      emits_only (fun e => negb (is_fitting e)) (predict x batch_size))
  /\ (forall x y batch_size,
         emits_only (fun e => negb (is_fitting e)) (evaluate x y batch_size))
  /\ emits_only (fun e => negb (is_fitting e)) export_model.
Proof.
  split; [|split].
  - intros x batch_size. unfold predict.
    apply emits_only_bind; [apply emits_only_reads_only, reads_only_get_self|intros s].
    apply emits_only_bind.
    + destruct x as [|a|items|d]; try apply adapt_transforms_only.
      apply emits_only_bind; [unfold _get_x; emits_only|intros x'].
      apply process_xy_transforms_only.
    + intros dataset. cbv zeta. unfold _postprocess. emits_only.
  - intros x y batch_size. unfold evaluate.
    apply emits_only_bind; [apply process_xy_transforms_only|intros dataset].
    cbv zeta. emits_only.
  - unfold export_model. emits_only.
Qed.

(** ** What fit assigns *)

Lemma same_but_split_refl s : same_but_split s s.
Proof. reflexivity. Qed.

Lemma assigns_split_only_keeps_self {A} (c : M A) :
  keeps_self c -> assigns_split_only c.
Proof. intros H st. destruct (H st) as [Hself Hid]. split; [now rewrite Hself|exact Hid]. Qed.

Lemma assigns_split_only_set b : assigns_split_only (set_self (set_split_dataset b)).
Proof. intros st. split; reflexivity. Qed.

Lemma assigns_split_only_bind {A B} (c : M A) (k : A -> M B) :
  assigns_split_only c -> (forall a, assigns_split_only (k a)) ->
  assigns_split_only (bind c k).
Proof.
  intros Hc Hk st. unfold bind. specialize (Hc st).
  destruct (c st) as [[e|a] st']; simpl in Hc; [exact Hc|].
  destruct (Hk a st') as [H1 H2]. destruct Hc as [H3 H4].
  unfold same_but_split in *. split; congruence.
Qed.

Ltac assigns_split_only :=
  repeat first
    [ apply assigns_split_only_set
    | apply assigns_split_only_keeps_self, process_xy_keeps_self
    | apply assigns_split_only_keeps_self, keeps_self_reads_only, check_data_format_pure
    | apply assigns_split_only_keeps_self, keeps_self_reads_only, get_tuner_reads_only
    | apply assigns_split_only_keeps_self, keeps_self_ret
    | apply assigns_split_only_keeps_self, keeps_self_raise
    | apply assigns_split_only_keeps_self, keeps_self_lift
    | apply assigns_split_only_keeps_self, keeps_self_get_self
    | apply assigns_split_only_keeps_self, keeps_self_emit
    | apply assigns_split_only_bind; [|intros ?]
    | match goal with
      | |- assigns_split_only (if ?b then _ else _) => destruct b
      | |- assigns_split_only (match ?v with _ => _ end) => destruct v
      | |- assigns_split_only (let '(_, _) := ?v in _) => destruct v
      end ].

(** X15.  Whatever its arguments and whether it succeeds or fails, [fit]
    assigns no attribute of the object other than [_split_dataset]: the
    inputs, the outputs, the seed, the tuner, the heads and both lists of
    adapters are those it found. *)
Theorem fit_assigns_split_only x y batch_size epochs validation_split validation_data st :
  let s := self st in
  let s' := self (snd (fit x y batch_size epochs validation_split validation_data st)) in
  inputs s' = inputs s /\ outputs s' = outputs s /\ seed s' = seed s
  /\ tuner s' = tuner s /\ _heads s' = _heads s
  /\ _input_adapters s' = _input_adapters s
  /\ _output_adapters s' = _output_adapters s.
Proof.
  assert (H : assigns_split_only
                (fit x y batch_size epochs validation_split validation_data)).
  { unfold fit, _prepare_data. assigns_split_only. }
  destruct (H st) as [Hsame _]. unfold same_but_split in Hsame. cbv zeta.
  destruct (self (snd (fit x y batch_size epochs validation_split validation_data st))).
  destruct (self st). unfold set_split_dataset in Hsame. simpl in *.
  injection Hsame as -> -> -> -> -> -> ->. repeat split.
Qed.

(** ** De-structuring of a unified dataset *)

Lemma flatten_components {A} (c : nest A) :
  flat_map nest_flatten (as_components c) = nest_flatten c.
Proof. now destruct c. Qed.

Lemma flatten_datasets dss : flat_map flatten (map PyDataset dss) = map PyDataset dss.
Proof. induction dss as [|d dss IH]; simpl; congruence. Qed.

Lemma lookup_seq_all {A} (l : list A) :
  map (fun i => l !! i) (seq 0 (length l)) = map Some l.
Proof.
  induction l as [|a l IH]; [reflexivity|].
  simpl. f_equal. rewrite <- seq_shift, map_map. exact IH.
Qed.

Lemma map_Some_inj {A} (l l' : list A) : map Some l = map Some l' -> l = l'.
Proof.
  revert l'. induction l as [|a l IH]; intros [|a' l'] H; try discriminate;
    [reflexivity|].
  simpl in H. injection H as -> H. f_equal. now apply IH.
Qed.

Lemma slots_loop d idx st :
  Forall (fun i => i < length (flat_map nest_flatten (element_spec d))) idx ->
  exists dss shapes,
    comprehension
      (fun index => d' <- lift (ds_map (lambda_flatten_index index) d) ;;
                    ret (PyDataset d')) idx st
    = (inr (map PyDataset dss), st)
    /\ map element_spec dss = map (fun s => [Leaf s]) shapes
    /\ map (fun i => flat_map nest_flatten (element_spec d) !! i) idx = map Some shapes.
Proof.
  induction idx as [|i idx IH]; intros Hidx.
  - exists [], []. now repeat split.
  - apply Forall_cons in Hidx as [Hi Hidx].
    destruct (IH Hidx) as (dss & shapes & Hrun & Hspec & Hlook).
    apply lookup_lt_is_Some_2 in Hi as [s Hs].
    eexists (_ :: dss), (s :: shapes).
    split; [|split; [|simpl; now rewrite Hs, Hlook]].
    + cbn [comprehension]. unfold bind at 1. unfold bind at 1.
      unfold ds_map, lambda_flatten_index. rewrite Hs. unfold lift, ret at 1.
      unfold ret at 1. rewrite (bind_inr _ _ _ _ _ Hrun). reflexivity.
    + simpl. now rewrite Hspec.
Qed.

Lemma slots_run d count st :
  count = length (flat_map nest_flatten (element_spec d)) ->
  exists dss,
    slots d count st = (inr (map PyDataset dss), st)
    /\ map element_spec dss
       = map (fun s => [Leaf s]) (flat_map nest_flatten (element_spec d)).
Proof.
  intros ->. unfold slots.
  destruct (slots_loop d (seq 0 (length (flat_map nest_flatten (element_spec d)))) st)
    as (dss & shapes & Hrun & Hspec & Hlook).
  { apply Forall_forall. intros i Hi. apply elem_of_seq in Hi. lia. }
  exists dss. split; [exact Hrun|].
  rewrite lookup_seq_all in Hlook. apply map_Some_inj in Hlook. now rewrite Hlook.
Qed.

Lemma check_dataset_not_pairs d validation st :
  length (element_spec d) <> 2 ->
  exists e,
    _check_data_format (PyDataset d) PyNone validation false st = (inl e, st).
Proof.
  intros Hlen.
  exists (match unpack2 (element_spec d) with
          | inl e => e
          | inr _ => ValueError EmptyString
          end).
  unfold _check_data_format. unfold bind at 1, get_self.
  cbn [is_Dataset is_None negb andb]. unfold bind at 1, ret at 1. apply bind_inl.
  cbn [negb]. apply bind_inl. unfold dataset_shape.
  destruct (element_spec d) as [|a [|b [|c rest]]]; simpl in Hlen;
    try reflexivity. congruence.
Qed.

Lemma check_dataset_passed d validation predict st :
  _check_data_format (PyDataset d) PyNone validation predict st = (inr tt, st) ->
  length (x_leaves d predict) = length (inputs (self st))
  /\ (predict = false ->
      length (y_leaves d) = length (outputs (self st))
      /\ exists cx cy, element_spec d = [cx; cy]).
Proof.
  intros Hcheck. destruct predict.
  - rewrite (check_data_format_counts (PyDataset d) PyNone validation true st
               (length (flat_map nest_flatten (element_spec d))) 0) in Hcheck
      by (try reflexivity; discriminate).
    split; [|discriminate]. unfold x_leaves.
    destruct (Nat.eqb_spec (length (flat_map nest_flatten (element_spec d)))
                (length (inputs (self st)))) as [Heq|Hne];
      [exact Heq|discriminate].
  - destruct (decide (length (element_spec d) = 2)) as [Hlen|Hlen].
    + destruct (element_spec d) as [|cx [|cy [|c rest]]] eqn:Hspec; try discriminate.
      rewrite (check_data_format_counts (PyDataset d) PyNone validation false st
                 (length (nest_flatten cx)) (length (nest_flatten cy))) in Hcheck
        by (try reflexivity; intros; simpl; unfold y_count; now rewrite Hspec).
      unfold x_leaves, y_leaves. rewrite Hspec.
      destruct (Nat.eqb_spec (length (nest_flatten cx)) (length (inputs (self st))))
        as [Hx|Hx]; [|discriminate].
      destruct (Nat.eqb_spec (length (nest_flatten cy)) (length (outputs (self st))))
        as [Hy|Hy]; [|discriminate].
      split; [exact Hx|]. intros _. split; [exact Hy|]. now exists cx, cy.
    + destruct (check_dataset_not_pairs d validation st Hlen) as [e He].
      rewrite He in Hcheck. discriminate.
Qed.

Lemma adapted_datasets dss (hms : list HyperModel) adapters n :
  length dss = n -> length hms = n ->
  adapted_count (flatten (PySeq (map PyDataset dss))) hms adapters
  = n `min` length adapters.
Proof.
  intros Hd Hh. unfold adapted_count. cbn [flatten].
  rewrite flatten_datasets, length_map. lia.
Qed.

Lemma adapted_in_place s :
  adapters_in_place s ->
  0 < length (inputs s) /\ 0 < length (outputs s)
  /\ length (_input_adapters s) = length (inputs s)
  /\ length (_heads s) = length (outputs s)
  /\ length (_output_adapters s) = length (outputs s).
Proof.
  intros (Hi & Ho & H1 & H2 & H3). repeat split; try assumption.
  - destruct (inputs s); [congruence|simpl; lia].
  - destruct (outputs s); [congruence|simpl; lia].
Qed.

Lemma process_dataset_run d fit validation predict st :
  _check_data_format (PyDataset d) PyNone validation predict st = (inr tt, st) ->
  exists xs ys,
    _process_xy (PyDataset d) PyNone fit validation predict st
    = adapt_xy (PySeq (map PyDataset xs))
        (if predict then PyNone else PySeq (map PyDataset ys)) fit predict (self st) st
    /\ map element_spec xs = map (fun s => [Leaf s]) (x_leaves d predict)
    /\ (predict = false ->
        map element_spec ys = map (fun s => [Leaf s]) (y_leaves d)).
Proof.
  intros Hcheck.
  destruct (check_dataset_passed d validation predict st Hcheck) as [Hnx Hny].
  unfold _process_xy. rewrite (bind_inr _ _ _ _ _ Hcheck).
  unfold bind at 1, get_self. destruct predict; cbn [negb].
  - unfold x_leaves in *.
    destruct (slots_run d (length (inputs (self st))) st (eq_sym Hnx))
      as (xs & Hxs & Hspec).
    exists xs, []. split; [|split; [exact Hspec|discriminate]].
    unfold bind at 1. unfold bind at 1. rewrite Hxs. reflexivity.
  - destruct (Hny eq_refl) as (Hy & cx & cy & Hspec). clear Hny.
    unfold x_leaves, y_leaves in *. rewrite Hspec in *.
    assert (Hsnd : ds_map lambda_snd d
                   = inr {| element_spec := as_components cy;
                            rows := omap (fun r => match lambda_snd ndarray r with
                                                   | inr r' => Some r'
                                                   | inl _ => None
                                                   end) (rows d);
                            batches := batches d |})
      by (unfold ds_map; now rewrite Hspec).
    set (dy := {| element_spec := as_components cy; rows := _; batches := _ |}) in Hsnd.
    rewrite (map_fst_pair d cx cy Hspec).
    set (dx := {| element_spec := as_components cx; rows := _; batches := _ |}).
    destruct (slots_run dy (length (outputs (self st))) st) as (ys & Hys & Hyspec).
    { simpl. now rewrite flatten_components. }
    destruct (slots_run dx (length (inputs (self st))) st) as (xs & Hxs & Hxspec).
    { simpl. now rewrite flatten_components. }
    simpl in Hyspec, Hxspec. rewrite flatten_components in Hyspec, Hxspec.
    exists xs, ys. split; [|split; [exact Hxspec|intros _; exact Hyspec]].
    rewrite Hsnd. unfold bind at 1. unfold bind at 1. unfold lift at 1, ret at 1.
    unfold bind at 1. rewrite Hys. unfold bind at 1. unfold lift at 1, ret at 1.
    unfold bind at 1. rewrite Hxs. reflexivity.
Qed.

(** X16.  A unified dataset of [(x, y)] pairs, or any unified dataset in
    predict mode, that passes the arity check is processed on an object
    with its adapters in place: the check has compared the very counts that
    bound the indices of the de-structuring, so [nest.flatten(a)[index]] is
    never out of range.  Each input adapter, and outside predict mode each
    head adapter, is given a dataset of its own whose single component is
    the flattened component of its position, the x part before the y
    part.  (The adapters are taken to return.) *)
Theorem process_dataset_succeeds d fit validation predict st :
  _check_data_format (PyDataset d) PyNone validation predict st = (inr tt, st) ->
  (predict = false -> length (element_spec d) = 2) ->
  adapters_in_place (self st) ->
  exists xs ys ds,
    _process_xy (PyDataset d) PyNone fit validation predict st
    = (inr ds,
       extended st
         (adapt_events fit (map PyDataset xs) (map HmNode (inputs (self st)))
            (_input_adapters (self st))
          ++ (if predict then []
              else adapt_events fit (map PyDataset ys) (map HmBlock (_heads (self st)))
                     (_output_adapters (self st)))))
    /\ map element_spec xs = map (fun s => [Leaf s]) (x_leaves d predict)
    /\ length xs = length (inputs (self st))
    /\ (predict = false ->
        map element_spec ys = map (fun s => [Leaf s]) (y_leaves d)
        /\ length ys = length (outputs (self st))).
Proof.
  intros Hcheck _ Hplace.
  destruct (check_dataset_passed d validation predict st Hcheck) as [Hnx Hny].
  destruct (process_dataset_run d fit validation predict st Hcheck)
    as (xs & ys & Hrun & Hxspec & Hyspec).
  assert (Hxlen : length xs = length (inputs (self st))).
  { apply (f_equal length) in Hxspec. rewrite !length_map in Hxspec. congruence. }
  assert (Hylen : predict = false -> length ys = length (outputs (self st))).
  { intros Hpredict. destruct (Hny Hpredict) as [Hy _]. specialize (Hyspec Hpredict).
    apply (f_equal length) in Hyspec. rewrite !length_map in Hyspec. congruence. }
  destruct (adapted_in_place _ Hplace) as (Hpi & Hpo & Hia & Hh & Hoa).
  destruct (adapt_xy_run (PySeq (map PyDataset xs))
              (if predict then PyNone else PySeq (map PyDataset ys)) fit predict st)
    as (ds & Hds & _).
  { rewrite (adapted_datasets xs _ _ _ Hxlen) by apply length_map. lia. }
  { intros ->. rewrite (adapted_datasets ys _ _ _ (Hylen eq_refl)); [lia|].
    now rewrite length_map. }
  exists xs, ys, ds. split.
  - rewrite Hrun, Hds. destruct predict; cbn [flatten]; now rewrite ?flatten_datasets.
  - split; [exact Hxspec|]. split; [exact Hxlen|].
    intros Hpredict. split; [exact (Hyspec Hpredict)|exact (Hylen Hpredict)].
Qed.

(** ** Success of evaluate and predict *)






End FurtherPipelineProperties.

(** ** The further properties on concrete objects *)

Lemma single_io_in_place : adapters_in_place (self Demo.single_io).
Proof. repeat split; vm_compute; congruence. Qed.

Lemma process_arrays_succeeds_witness :
  exists ds,
    fst (_process_xy (ext:=Demo.ext) Demo.ten Demo.ten true false false Demo.single_io)
    = inr ds
    /\ length (element_spec ds) = 2.
Proof.
  assert (Hy : false = false ->
               leaf_count Demo.ten = Some (length (outputs (self Demo.single_io))))
    by reflexivity.
  destruct (process_arrays_succeeds (ext:=Demo.ext) Demo.ten Demo.ten true false false
              Demo.single_io eq_refl eq_refl Hy) as (Hrun & _).
  destruct Hrun as (ds & Hrun & Hlen); [vm_compute; lia|intros _; vm_compute; lia|].
  exists ds. rewrite Hrun. split; [reflexivity|exact (Hlen eq_refl)].
Defined.

Lemma arrays_without_y_witness :
  evaluate (ext:=Demo.ext) Demo.two_arrays PyNone 32 Demo.single_io
  = (inl (AttributeError "'NoneType' object has no attribute 'shape'"), Demo.single_io).
Proof.
  destruct (arrays_without_y (ext:=Demo.ext) Demo.two_arrays Demo.single_io
              eq_refl eq_refl) as [H _].
  exact (H 32).
Defined.

Lemma wide_dataset_refused_witness :
  evaluate (ext:=Demo.ext) (PyDataset Demo.triples) PyNone 32 Demo.single_io
  = (inl (ValueError "too many values to unpack (expected 2)"), Demo.single_io).
Proof.
  assert (Hlen : 2 < length (element_spec Demo.triples)) by (simpl; lia).
  destruct (wide_dataset_refused (ext:=Demo.ext) Demo.triples Demo.single_io Hlen)
    as [H _].
  exact (H 32).
Defined.


Lemma validation_tuple_unpacked_witness :
  fit (ext:=Demo.ext) Demo.ten Demo.ten 32 None None (ValTuple [Demo.three])
    Demo.single_io
  = (inl (ValueError "not enough values to unpack (expected 2, got 1)"),
     validation_start Demo.fitted).
Proof.
  destruct (validation_tuple_unpacked (ext:=Demo.ext) Demo.ten Demo.ten 32 None None
              [Demo.three] Demo.single_io Demo.fitted_dataset Demo.fitted fitted_run)
    as [H _].
  exact (H eq_refl).
Defined.


Lemma process_dataset_succeeds_witness :
  exists ds st',
    _process_xy (ext:=Demo.ext) (PyDataset Demo.pairs) PyNone false false false
      Demo.single_io
    = (inr ds, st').
Proof.
  destruct (process_dataset_succeeds (ext:=Demo.ext) Demo.pairs false false false
              Demo.single_io eq_refl (fun _ => eq_refl) single_io_in_place)
    as (xs & ys & ds & H & _).
  eexists. eexists. exact H.
Defined.


